(** * JIT compile broker admission control and nmethod life-cycle helpers

    A shallow embedding of the inline code of
    [src/hotspot/share/compiler/compileBroker.hpp] and
    [src/hotspot/share/code/nmethod.hpp], and of the class recorder of
    [src/hotspot/share/cds/classPreloader.cpp].

    Machine integers are carried as [Z] with their wrap-around written out;
    pointers are byte addresses in [Z], a nullable pointer to an object is an
    [option]; static fields of [CompileBroker] and the fields of one
    [nmethod] are records that the operations pass along explicitly.  An
    [Atomic::] primitive is one indivisible step on the record, so a run of
    several threads is the sequence of the atomic steps they perform. *)

From Stdlib Require Import ZArith List Bool Lia.
From Stdlib Require Import Strings.Byte.
From Stdlib Require String.
Import ListNotations.
Local Open Scope Z_scope.

(** ** Machine integers *)

Module MachineInt.

(** Two's complement reduction to a signed [w]-bit integer. *)
Definition wrap_signed (w z : Z) : Z :=
  (z + 2 ^ (w - 1)) mod 2 ^ w - 2 ^ (w - 1).

(** Reduction to an unsigned [w]-bit integer. *)
Definition wrap_unsigned (w z : Z) : Z := z mod 2 ^ w.

(** [jint] and [int] are 32-bit signed, [uint] is 32-bit unsigned. *)
Definition to_jint : Z -> Z := wrap_signed 32.
Definition to_int  : Z -> Z := wrap_signed 32.
Definition to_uint : Z -> Z := wrap_unsigned 32.

Definition is_jint (z : Z) : Prop := - 2 ^ 31 <= z < 2 ^ 31.

End MachineInt.

(** ** [Atomic::cmpxchg] and [Atomic::xchg] on one cell

    Both return the value the cell held before, paired with its new
    content. *)

Module Atomic.

Definition cmpxchg (dest compare_value exchange_value : Z) : Z * Z :=
  if dest =? compare_value then (dest, exchange_value) else (dest, dest).

Definition xchg (dest exchange_value : Z) : Z * Z := (dest, exchange_value).

End Atomic.

(** ** CompileQueue *)

Module CompileQueue.

Record t := mk {
  _size          : Z;   (* int  *)
  _peak_size     : Z;   (* int  *)
  _total_added   : Z;   (* uint *)
  _total_removed : Z    (* uint *)
}.

(** The constructor [CompileQueue(name, lock)]: all counters start at 0. *)
Definition new : t := mk 0 0 0 0.

Definition size (q : t) : Z := _size q.
Definition get_peak_size (q : t) : Z := _peak_size q.
Definition get_total_added (q : t) : Z := _total_added q.
Definition get_total_removed (q : t) : Z := _total_removed q.

End CompileQueue.

(** ** CompileBroker *)

Module CompileBroker.

Import MachineInt.

(** [enum CompilerActivity]. *)
Definition stop_compilation     : Z := 0.
Definition run_compilation      : Z := 1.
Definition shutdown_compilation : Z := 2.

(** The static fields the inline functions read or write, with the two
    VM flags that [disable_compilation_forever] clears.  A queue pointer
    is null until the queue is created. *)
Record state := mk {
  UseCompiler                     : bool;
  AlwaysCompileLoopMethods        : bool;
  _should_compile_new_jobs        : Z;   (* volatile jint *)
  _total_compiler_stopped_count   : Z;   (* uint *)
  _total_compiler_restarted_count : Z;   (* uint *)
  _print_compilation_warning      : Z;   (* volatile int *)
  _c1_compile_queue               : option CompileQueue.t;
  _c2_compile_queue               : option CompileQueue.t;
  _c3_compile_queue               : option CompileQueue.t;
  _sc1_compile_queue              : option CompileQueue.t;
  _sc2_compile_queue              : option CompileQueue.t
}.

Definition with_should_compile_new_jobs (v : Z) (s : state) : state :=
  mk (UseCompiler s) (AlwaysCompileLoopMethods s) v
     (_total_compiler_stopped_count s) (_total_compiler_restarted_count s)
     (_print_compilation_warning s)
     (_c1_compile_queue s) (_c2_compile_queue s) (_c3_compile_queue s)
     (_sc1_compile_queue s) (_sc2_compile_queue s).

Definition with_stopped_count (v : Z) (s : state) : state :=
  mk (UseCompiler s) (AlwaysCompileLoopMethods s) (_should_compile_new_jobs s)
     v (_total_compiler_restarted_count s)
     (_print_compilation_warning s)
     (_c1_compile_queue s) (_c2_compile_queue s) (_c3_compile_queue s)
     (_sc1_compile_queue s) (_sc2_compile_queue s).

Definition with_restarted_count (v : Z) (s : state) : state :=
  mk (UseCompiler s) (AlwaysCompileLoopMethods s) (_should_compile_new_jobs s)
     (_total_compiler_stopped_count s) v
     (_print_compilation_warning s)
     (_c1_compile_queue s) (_c2_compile_queue s) (_c3_compile_queue s)
     (_sc1_compile_queue s) (_sc2_compile_queue s).

Definition with_print_compilation_warning (v : Z) (s : state) : state :=
  mk (UseCompiler s) (AlwaysCompileLoopMethods s) (_should_compile_new_jobs s)
     (_total_compiler_stopped_count s) (_total_compiler_restarted_count s)
     v
     (_c1_compile_queue s) (_c2_compile_queue s) (_c3_compile_queue s)
     (_sc1_compile_queue s) (_sc2_compile_queue s).

Definition with_flags (use_compiler loop_methods : bool) (s : state) : state :=
  mk use_compiler loop_methods (_should_compile_new_jobs s)
     (_total_compiler_stopped_count s) (_total_compiler_restarted_count s)
     (_print_compilation_warning s)
     (_c1_compile_queue s) (_c2_compile_queue s) (_c3_compile_queue s)
     (_sc1_compile_queue s) (_sc2_compile_queue s).

(** [get_compilation_activity_mode] *)
Definition get_compilation_activity_mode (s : state) : Z :=
  _should_compile_new_jobs s.

(** [should_compile_new_jobs] *)
Definition should_compile_new_jobs (s : state) : bool :=
  UseCompiler s && (_should_compile_new_jobs s =? run_compilation).

(** [set_should_compile_new_jobs(new_state)]: one compare-and-swap whose
    expected value is [1 - new_state], then the statistics of the caller
    that won it. *)
Definition set_should_compile_new_jobs (new_state : Z) (s : state)
  : bool * state :=
  let expected := to_jint (1 - new_state) in
  let '(old, cell) :=
    Atomic.cmpxchg (_should_compile_new_jobs s) expected new_state in
  let s1 := with_should_compile_new_jobs cell s in
  let success := old =? expected in
  if success then
    if new_state =? run_compilation then
      (success,
       with_restarted_count
         (to_uint (_total_compiler_restarted_count s1 + 1)) s1)
    else
      (success,
       with_stopped_count
         (to_uint (_total_compiler_stopped_count s1 + 1)) s1)
  else (success, s1).

(** [disable_compilation_forever] *)
Definition disable_compilation_forever (s : state) : state :=
  let s1 := with_flags false false s in
  let '(_, cell) :=
    Atomic.xchg (_should_compile_new_jobs s1) (to_jint shutdown_compilation) in
  with_should_compile_new_jobs cell s1.

(** [is_compilation_disabled_forever] *)
Definition is_compilation_disabled_forever (s : state) : bool :=
  _should_compile_new_jobs s =? shutdown_compilation.

(** [should_print_compiler_warning] *)
Definition should_print_compiler_warning (s : state) : bool * state :=
  let '(old, cell) := Atomic.cmpxchg (_print_compilation_warning s) 0 1 in
  (old =? 0, with_print_compilation_warning cell s).

Definition get_total_compiler_stopped_count (s : state) : Z :=
  to_int (_total_compiler_stopped_count s).
Definition get_total_compiler_restarted_count (s : state) : Z :=
  to_int (_total_compiler_restarted_count s).

(** [queue_size(comp_level, is_scc)].  [compile_queue] is declared in the
    header and defined elsewhere: the selector is taken as it comes. *)
Section QueueSize.
Variable compile_queue : state -> Z -> bool -> option CompileQueue.t.

Definition queue_size (s : state) (comp_level : Z) (is_scc : bool) : Z :=
  let q := compile_queue s comp_level is_scc in
  match q with
  | Some q' => CompileQueue.size q'
  | None => 0
  end.
End QueueSize.

(** *** Runs of the admission-control interface

    Every call below is one atomic step (or, for
    [disable_compilation_forever], stores that no other call reads back
    before the exchange), so what several threads do is a list of calls in
    the order of their atomic steps.  Each call leaves its return value in
    the trace. *)
Inductive call :=
| Call_set_should_compile_new_jobs (new_state : Z)
| Call_disable_compilation_forever
| Call_should_print_compiler_warning.

Inductive ret :=
| Ret_bool (b : bool)
| Ret_void.

Definition step (c : call) (s : state) : ret * state :=
  match c with
  | Call_set_should_compile_new_jobs n =>
      let '(b, s') := set_should_compile_new_jobs n s in (Ret_bool b, s')
  | Call_disable_compilation_forever =>
      (Ret_void, disable_compilation_forever s)
  | Call_should_print_compiler_warning =>
      let '(b, s') := should_print_compiler_warning s in (Ret_bool b, s')
  end.

Fixpoint run (cs : list call) (s : state) : list ret * state :=
  match cs with
  | [] => ([], s)
  | c :: cs' =>
      let '(r, s1) := step c s in
      let '(rs, s2) := run cs' s1 in
      (r :: rs, s2)
  end.

(** An argument drawn from [enum CompilerActivity]. *)
Definition is_activity (n : Z) : Prop :=
  n = stop_compilation \/ n = run_compilation \/ n = shutdown_compilation.

Definition activity_call (c : call) : Prop :=
  match c with
  | Call_set_should_compile_new_jobs n => is_activity n
  | _ => True
  end.

(** The results of the calls of [should_print_compiler_warning] in a
    trace, in order. *)
Fixpoint warning_results (cs : list call) (rs : list ret) : list bool :=
  match cs, rs with
  | Call_should_print_compiler_warning :: cs', Ret_bool b :: rs' =>
      b :: warning_results cs' rs'
  | _ :: cs', _ :: rs' => warning_results cs' rs'
  | _, _ => []
  end.

(** How many calls of [should_print_compiler_warning] a trace holds. *)
Fixpoint warning_calls (cs : list call) : nat :=
  match cs with
  | [] => O
  | Call_should_print_compiler_warning :: cs' => S (warning_calls cs')
  | _ :: cs' => warning_calls cs'
  end.

(** [true] for the first of [k] calls and [false] for the others. *)
Definition first_only (k : nat) : list bool :=
  match k with
  | O => []
  | S k' => true :: repeat false k'
  end.

(** The results of the calls of [set_should_compile_new_jobs]. *)
Fixpoint set_results (cs : list call) (rs : list ret) : list bool :=
  match cs, rs with
  | Call_set_should_compile_new_jobs _ :: cs', Ret_bool b :: rs' =>
      b :: set_results cs' rs'
  | _ :: cs', _ :: rs' => set_results cs' rs'
  | _, _ => []
  end.

(** *** A sample broker

    Compilation running, nothing counted or warned about yet, one C1
    queue holding five tasks; [sample_compile_queue] serves tier 1 from
    it and has no queue for any other tier. *)
Definition sample_state : state :=
  mk true true run_compilation 0 0 0
     (Some (CompileQueue.mk 5 7 9 4)) None None None None.

Definition sample_shutdown : state :=
  disable_compilation_forever sample_state.

Definition sample_calls : list call :=
  [ Call_set_should_compile_new_jobs run_compilation;
    Call_should_print_compiler_warning;
    Call_set_should_compile_new_jobs stop_compilation;
    Call_disable_compilation_forever;
    Call_should_print_compiler_warning;
    Call_set_should_compile_new_jobs run_compilation ].

Definition sample_compile_queue (s : state) (comp_level : Z) (is_scc : bool)
  : option CompileQueue.t :=
  if (comp_level =? 1) && negb is_scc then _c1_compile_queue s else None.

End CompileBroker.

(** ** nmethod *)

Module nmethod.

Import MachineInt.

(** The install state kept in [_state], with the names the field's comment
    lists: [{not_installed, in_use, not_used, not_entrant}]. *)
Inductive install_state :=
| not_installed
| in_use
| not_used
| not_entrant.

Definition install_state_eqb (a b : install_state) : bool :=
  match a, b with
  | not_installed, not_installed
  | in_use, in_use
  | not_used, not_used
  | not_entrant, not_entrant => true
  | _, _ => false
  end.

(** The fields of one nmethod that the inline members touch.
    [header_begin], [_scopes_data_begin] and [_method] are inherited from
    the base classes; pointers are byte addresses and 0 is [nullptr]. *)
Record t := mk {
  header_begin              : Z;   (* address *)
  _scopes_data_begin        : Z;   (* address *)
  _method                   : Z;   (* Method* *)
  _osr_link                 : Z;   (* nmethod* *)
  _oops_do_mark_link        : Z;   (* oops_do_mark_link* *)
  _is_unlinked              : bool;
  _oops_offset              : Z;   (* int *)
  _metadata_offset          : Z;   (* int *)
  _has_flushed_dependencies : bool;
  _load_reported            : bool;
  _state                    : install_state
}.

Definition with_method (v : Z) (nm : t) : t :=
  mk (header_begin nm) (_scopes_data_begin nm) v (_osr_link nm)
     (_oops_do_mark_link nm) (_is_unlinked nm) (_oops_offset nm)
     (_metadata_offset nm) (_has_flushed_dependencies nm)
     (_load_reported nm) (_state nm).

Definition with_osr_link (v : Z) (nm : t) : t :=
  mk (header_begin nm) (_scopes_data_begin nm) (_method nm) v
     (_oops_do_mark_link nm) (_is_unlinked nm) (_oops_offset nm)
     (_metadata_offset nm) (_has_flushed_dependencies nm)
     (_load_reported nm) (_state nm).

Definition with_is_unlinked (v : bool) (nm : t) : t :=
  mk (header_begin nm) (_scopes_data_begin nm) (_method nm) (_osr_link nm)
     (_oops_do_mark_link nm) v (_oops_offset nm)
     (_metadata_offset nm) (_has_flushed_dependencies nm)
     (_load_reported nm) (_state nm).

Definition with_has_flushed_dependencies (v : bool) (nm : t) : t :=
  mk (header_begin nm) (_scopes_data_begin nm) (_method nm) (_osr_link nm)
     (_oops_do_mark_link nm) (_is_unlinked nm) (_oops_offset nm)
     (_metadata_offset nm) v
     (_load_reported nm) (_state nm).

Definition with_load_reported (v : bool) (nm : t) : t :=
  mk (header_begin nm) (_scopes_data_begin nm) (_method nm) (_osr_link nm)
     (_oops_do_mark_link nm) (_is_unlinked nm) (_oops_offset nm)
     (_metadata_offset nm) (_has_flushed_dependencies nm)
     v (_state nm).

Definition with_state (v : install_state) (nm : t) : t :=
  mk (header_begin nm) (_scopes_data_begin nm) (_method nm) (_osr_link nm)
     (_oops_do_mark_link nm) (_is_unlinked nm) (_oops_offset nm)
     (_metadata_offset nm) (_has_flushed_dependencies nm)
     (_load_reported nm) v.

(** *** Root-scan claim tags and the tagged link *)

Definition claim_weak_request_tag   : Z := 0.
Definition claim_weak_done_tag      : Z := 1.
Definition claim_strong_request_tag : Z := 2.
Definition claim_strong_done_tag    : Z := 3.

(** Modelled from the spec: [is_aligned] comes from a header that is not
    part of the sources; the assertion that uses it reads "nmethod pointer
    must have zero lower two LSB": for the alignment 4 the two low bits are
    clear, the value is a multiple of the alignment. *)
Definition is_aligned (p alignment : Z) : bool := p mod alignment =? 0.

Section PointerWidth.
(** Width of [uintptr_t] in bits. *)
Variable ptr_bits : Z.

Definition to_uintptr (z : Z) : Z := wrap_unsigned ptr_bits z.

(** The asserted conditions of [mark_link]. *)
Definition mark_link_assert (nm tag : Z) : bool :=
  (tag <=? claim_strong_done_tag) && is_aligned nm 4.

(** [((uintptr_t)nm & ~0x3) | tag]: [~0x3] is the [int] -4, converted to
    [uintptr_t]; the [uint] tag is zero-extended. *)
Definition mark_link (nm tag : Z) : Z :=
  Z.lor (Z.land (to_uintptr nm) (to_uintptr (Z.lnot 3))) (to_uintptr tag).

(** [(uint)((uintptr_t)link & 0x3)] *)
Definition extract_state (link : Z) : Z :=
  to_uint (Z.land (to_uintptr link) 3).

(** [(nmethod* )((uintptr_t)link & ~0x3)] *)
Definition extract_nmethod (link : Z) : Z :=
  Z.land (to_uintptr link) (to_uintptr (Z.lnot 3)).

Definition oops_do_has_weak_request (next : Z) : bool :=
  extract_state next =? claim_weak_request_tag.

Definition oops_do_has_any_strong_state (next : Z) : bool :=
  extract_state next >=? claim_strong_request_tag.
End PointerWidth.

(** *** Embedded oop and metadata tables *)

Section Tables.
(** [oopSize] and [wordSize] are constants of a header that is not part
    of the sources; [oopSize] is also the size of one [oop] slot and
    [wordSize] the size of one [Metadata*] slot. *)
Variables oopSize wordSize : Z.

Definition oops_begin (nm : t) : Z := header_begin nm + _oops_offset nm.
Definition oops_end (nm : t) : Z := header_begin nm + _metadata_offset nm.
Definition metadata_begin (nm : t) : Z :=
  header_begin nm + _metadata_offset nm.
Definition metadata_end (nm : t) : Z := _scopes_data_begin nm.

Definition oops_size (nm : t) : Z := to_int (oops_end nm - oops_begin nm).
Definition metadata_size (nm : t) : Z :=
  to_int (metadata_end nm - metadata_begin nm).

(** [%] and [/] on [int] truncate towards zero. *)
Definition oops_count_assert (nm : t) : bool :=
  Z.rem (oops_size nm) oopSize =? 0.
Definition oops_count (nm : t) : Z :=
  to_int (Z.quot (oops_size nm) oopSize + 1).

Definition metadata_count_assert (nm : t) : bool :=
  Z.rem (metadata_size nm) wordSize =? 0.
Definition metadata_count (nm : t) : Z :=
  to_int (Z.quot (metadata_size nm) wordSize + 1).

Definition oops_contains (nm : t) (addr : Z) : bool :=
  (oops_begin nm <=? addr) && (addr <? oops_end nm).
Definition metadata_contains (nm : t) (addr : Z) : bool :=
  (metadata_begin nm <=? addr) && (addr <? metadata_end nm).

(** [assert(index > 0 && index <= oops_count(), ...)] *)
Definition oop_addr_at_assert (nm : t) (index : Z) : bool :=
  (index >? 0) && (index <=? oops_count nm).
(** [&oops_begin()[index - 1]] *)
Definition oop_addr_at (nm : t) (index : Z) : Z :=
  oops_begin nm + to_int (index - 1) * oopSize.

Definition metadata_addr_at_assert (nm : t) (index : Z) : bool :=
  (index >? 0) && (index <=? metadata_count nm).
Definition metadata_addr_at (nm : t) (index : Z) : Z :=
  metadata_begin nm + to_int (index - 1) * wordSize.
End Tables.

(** *** Flags *)

Definition is_not_installed (nm : t) : bool :=
  install_state_eqb (_state nm) not_installed.
Definition is_not_entrant (nm : t) : bool :=
  install_state_eqb (_state nm) not_entrant.

Definition is_unlinked (nm : t) : bool := _is_unlinked nm.

(** [assert(!_is_unlinked, "already unlinked"); _is_unlinked = true;] *)
Definition set_is_unlinked_assert (nm : t) : bool := negb (_is_unlinked nm).
Definition set_is_unlinked (nm : t) : t := with_is_unlinked true nm.

Definition has_flushed_dependencies (nm : t) : bool :=
  _has_flushed_dependencies nm.
Definition set_has_flushed_dependencies_assert (nm : t) : bool :=
  negb (has_flushed_dependencies nm).
Definition set_has_flushed_dependencies (nm : t) : t :=
  with_has_flushed_dependencies true nm.

Definition load_reported (nm : t) : bool := _load_reported nm.
Definition set_load_reported (nm : t) : t := with_load_reported true nm.

Definition osr_link (nm : t) : Z := _osr_link nm.
Definition set_osr_link (n : Z) (nm : t) : t := with_osr_link n nm.
Definition set_method (m : Z) (nm : t) : t := with_method m nm.

(** *** Install-state transitions *)

(** Modelled from the spec: the body of [try_transition] is not part of
    the sources.  The spec makes it "a single atomic compare-and-swap on
    the state field" that "returns whether this caller performed the
    transition", along [not_installed -> in_use -> {not_used,
    not_entrant}]: the swap expects the state that precedes [new_state]
    in that order, and nothing precedes [not_installed]. *)
Definition expected_before (new_state : install_state)
  : option install_state :=
  match new_state with
  | not_installed => None
  | in_use => Some not_installed
  | not_used => Some in_use
  | not_entrant => Some in_use
  end.

Definition try_transition (new_state : install_state) (nm : t) : bool * t :=
  match expected_before new_state with
  | Some expected =>
      if install_state_eqb (_state nm) expected
      then (true, with_state new_state nm)
      else (false, nm)
  | None => (false, nm)
  end.

(** [make_in_use] *)
Definition make_in_use (nm : t) : bool * t := try_transition in_use nm.

(** Modelled from the spec: the body of [make_not_entrant(bool)] is not
    part of the sources.  Its flag chooses between the two retired states
    ([make_not_used] passes [false]) and the change of state is
    [try_transition]. *)
Definition make_not_entrant (flag : bool) (nm : t) : bool * t :=
  try_transition (if flag then not_entrant else not_used) nm.

(** [make_not_used] *)
Definition make_not_used (nm : t) : bool * t := make_not_entrant false nm.

(** *** Runs of operations on one nmethod *)

Inductive op :=
| Op_set_is_unlinked
| Op_set_has_flushed_dependencies
| Op_set_load_reported
| Op_set_osr_link (n : Z)
| Op_set_method (m : Z)
| Op_try_transition (new_state : install_state)
| Op_make_in_use
| Op_make_not_entrant (flag : bool)
| Op_make_not_used.

(** What the operation does to the nmethod (asserts compiled out). *)
Definition apply (o : op) (nm : t) : t :=
  match o with
  | Op_set_is_unlinked => set_is_unlinked nm
  | Op_set_has_flushed_dependencies => set_has_flushed_dependencies nm
  | Op_set_load_reported => set_load_reported nm
  | Op_set_osr_link n => set_osr_link n nm
  | Op_set_method m => set_method m nm
  | Op_try_transition s => snd (try_transition s nm)
  | Op_make_in_use => snd (make_in_use nm)
  | Op_make_not_entrant flag => snd (make_not_entrant flag nm)
  | Op_make_not_used => snd (make_not_used nm)
  end.

(** The condition the operation asserts on entry. *)
Definition asserts (o : op) (nm : t) : bool :=
  match o with
  | Op_set_is_unlinked => set_is_unlinked_assert nm
  | Op_set_has_flushed_dependencies => set_has_flushed_dependencies_assert nm
  | _ => true
  end.

(** Product build: assertions are not compiled in. *)
Fixpoint run (os : list op) (nm : t) : t :=
  match os with
  | [] => nm
  | o :: os' => run os' (apply o nm)
  end.

(** Debug build: a failing assertion stops the VM. *)
Fixpoint run_debug (os : list op) (nm : t) : option t :=
  match os with
  | [] => Some nm
  | o :: os' => if asserts o nm then run_debug os' (apply o nm) else None
  end.

(** Position of a state in the life cycle; both retired states are last. *)
Definition rank (s : install_state) : Z :=
  match s with
  | not_installed => 0
  | in_use => 1
  | not_used => 2
  | not_entrant => 2
  end.

(** One edge of [not_installed -> in_use -> {not_used, not_entrant}]. *)
Inductive life_cycle_edge : install_state -> install_state -> Prop :=
| edge_install : life_cycle_edge not_installed in_use
| edge_not_used : life_cycle_edge in_use not_used
| edge_not_entrant : life_cycle_edge in_use not_entrant.

Definition retired (s : install_state) : Prop :=
  s = not_used \/ s = not_entrant.

(** *** A sample nmethod

    Header at 4096, two oop slots at offset 64 and two metadata slots at
    offset 80, scopes data from offset 96, on a platform whose [oopSize]
    and [wordSize] are 8; not yet installed, not unlinked. *)
Definition sample_oopSize : Z := 8.
Definition sample_wordSize : Z := 8.
Definition sample : t :=
  mk 4096 (4096 + 96) 0 0 0 false 64 80 false false not_installed.

End nmethod.

(** ** CompilerCounters *)

Module CompilerCounters.

(** [enum { cmname_buffer_length = 160 }] *)
Definition cmname_buffer_length : nat := 160.

Record t := mk {
  _current_method : list byte;   (* char[cmname_buffer_length] *)
  _compile_type   : Z            (* int *)
}.

(** The string a [const char*] points to: the bytes in memory from the
    pointer on, up to the first NUL (what is given is read as ending in
    one). *)
Fixpoint c_str (mem : list byte) : list byte :=
  match mem with
  | [] => []
  | b :: mem' => if Byte.eqb b x00 then [] else b :: c_str mem'
  end.

(** The [n] bytes that the C library's [strncpy(dest, src, n)] writes: the
    bytes of the string at [src] while [n] is not used up, then NUL for
    what is left of [n]. *)
Fixpoint strncpy_bytes (src : list byte) (n : nat) {struct n} : list byte :=
  match n with
  | O => []
  | S n' =>
      match src with
      | [] => repeat x00 n
      | b :: src' =>
          if Byte.eqb b x00 then repeat x00 n
          else b :: strncpy_bytes src' n'
      end
  end.

(** [strncpy(dest, src, n)] seen on the array [dest]: its first [n] bytes
    are replaced. *)
Definition strncpy (dest src : list byte) (n : nat) : list byte :=
  strncpy_bytes src n ++ skipn n dest.

(** [a[i] = v]. *)
Fixpoint array_store (a : list byte) (i : nat) (v : byte) : list byte :=
  match a, i with
  | [], _ => []
  | _ :: a', O => v :: a'
  | b :: a', S i' => b :: array_store a' i' v
  end.

(** [set_current_method]:
    [strncpy(_current_method, method, (size_t)cmname_buffer_length-1);
     _current_method[cmname_buffer_length-1] = '\0';] *)
Definition set_current_method (method : list byte) (c : t) : t :=
  let buf := strncpy (_current_method c) method (cmname_buffer_length - 1) in
  mk (array_store buf (cmname_buffer_length - 1) x00) (_compile_type c).

Definition current_method (c : t) : list byte := _current_method c.

Definition set_compile_type (compile_type : Z) (c : t) : t :=
  mk (_current_method c) compile_type.

Definition compile_type (c : t) : Z := _compile_type c.

(** A sample: a buffer full of ['x'] and the name ["run"] followed by its
    NUL and two bytes that are not part of the string. *)
Definition sample : t := mk (repeat x78 160) 0.
Definition sample_name : list byte := [x72; x75; x6e; x00; x41; x42].

End CompilerCounters.

(** ** Who won the admission state *)

Module AdmissionTrace.

Import CompileBroker.

(** The calls of [set_should_compile_new_jobs] in a trace that returned
    [true], split the way the function splits its statistics: those that
    asked for [run_compilation], and the others. *)
Fixpoint restarts_won (cs : list call) (rs : list ret) : nat :=
  match cs, rs with
  | Call_set_should_compile_new_jobs n :: cs', Ret_bool b :: rs' =>
      if b && (n =? run_compilation)
      then S (restarts_won cs' rs') else restarts_won cs' rs'
  | _ :: cs', _ :: rs' => restarts_won cs' rs'
  | _, _ => O
  end.

Fixpoint stops_won (cs : list call) (rs : list ret) : nat :=
  match cs, rs with
  | Call_set_should_compile_new_jobs n :: cs', Ret_bool b :: rs' =>
      if b && negb (n =? run_compilation)
      then S (stops_won cs' rs') else stops_won cs' rs'
  | _ :: cs', _ :: rs' => stops_won cs' rs'
  | _, _ => O
  end.

End AdmissionTrace.

(** ** ClassPreloader: recording the classes to preload

    [src/hotspot/share/cds/classPreloader.cpp].  Classes are the addresses
    of their [InstanceKlass]; what the recorder asks of the archive
    builder, of the klasses and of the other subsystems is gathered in a
    [world] that the functions read and never change.  Log output is left
    out. *)

Module JavaBaseName.
Import String.
Definition java_base : String.string := "java.base"%string.
End JavaBaseName.

Module ClassPreloader.

Definition klass := Z.

(** [SharedClassPathEntry], as far as the recorder looks at it. *)
Record SharedClassPathEntry := mk_scp {
  in_named_module  : bool;
  is_modules_image : bool
}.

Record world := mk_world {
  (* ClassLoader::ClassLoaderType *)
  BOOT_LOADER                     : Z;
  PLATFORM_LOADER                 : Z;
  APP_LOADER                      : Z;
  (* flags and CDSConfig *)
  PreloadSharedClasses            : bool;
  is_dumping_invokedynamic        : bool;
  is_dumping_dynamic_archive      : bool;
  is_dumping_final_static_archive : bool;
  (* ArchiveBuilder *)
  klasses                         : list klass;
  get_buffered_addr               : klass -> klass;
  get_buffered_klass              : klass -> klass;
  (* Klass and InstanceKlass *)
  is_instance_klass               : klass -> bool;
  shared_class_loader_type        : klass -> Z;
  is_hidden                       : klass -> bool;
  is_public                       : klass -> bool;
  is_shared_boot_class            : klass -> bool;
  is_shared_platform_class        : klass -> bool;
  name_starts_with_jdk_proxy      : klass -> bool;
  module                          : klass -> option Z;
  module_name                     : Z -> option String.string;
  shared_classpath_index          : klass -> Z;
  java_super                      : klass -> option klass;
  local_interfaces                : klass -> list klass;
  (* HeapShared, ClassPrelinker, MetaspaceObj, FileMapInfo,
     SystemDictionary, SystemDictionaryShared *)
  is_lambda_form_klass            : klass -> bool;
  is_vm_class                     : klass -> bool;
  is_shared                       : klass -> bool;
  shared_path                     : Z -> SharedClassPathEntry;
  is_platform_class_loader_of     : klass -> bool;
  is_excluded_class               : klass -> bool
}.

(** *** [ClassesTable]: a hashtable from classes to [bool]

    The table type is declared outside the sources.  It is kept as the
    list of its entries, newest first; of its operations the code uses
    [get], [put_if_absent], which leaves an entry that is there as it is
    and tells whether it made one, [put_when_absent], which is for keys
    that are not there, and [iterate_all]. *)
Definition ClassesTable := list (klass * bool).

Fixpoint table_get (t : ClassesTable) (k : klass) : option bool :=
  match t with
  | [] => None
  | (k', v) :: t' => if k' =? k then Some v else table_get t' k
  end.

Definition put_if_absent (k : klass) (v : bool) (t : ClassesTable)
  : ClassesTable * bool :=
  match table_get t k with
  | Some _ => (t, false)
  | None => ((k, v) :: t, true)
  end.

Definition put_when_absent (k : klass) (v : bool) (t : ClassesTable)
  : ClassesTable := (k, v) :: t.

(** [struct PreloadedKlasses]: six nullable arrays. *)
Record PreloadedKlasses := mk_tables {
  _boot               : option (list klass);
  _boot2              : option (list klass);
  _platform           : option (list klass);
  _platform_initiated : option (list klass);
  _app                : option (list klass);
  _app_initiated      : option (list klass)
}.

(** The static fields of [ClassPreloader]. *)
Record statics := mk_statics {
  _preloaded_classes          : ClassesTable;
  _platform_initiated_classes : ClassesTable;
  _app_initiated_classes      : ClassesTable;
  _record_javabase_only       : bool;
  _static_preloaded_klasses   : PreloadedKlasses;
  _dynamic_preloaded_klasses  : PreloadedKlasses
}.

Definition with_preloaded_classes (t : ClassesTable) (g : statics) : statics :=
  mk_statics t (_platform_initiated_classes g) (_app_initiated_classes g)
    (_record_javabase_only g) (_static_preloaded_klasses g)
    (_dynamic_preloaded_klasses g).

Definition with_platform_initiated_classes (t : ClassesTable) (g : statics)
  : statics :=
  mk_statics (_preloaded_classes g) t (_app_initiated_classes g)
    (_record_javabase_only g) (_static_preloaded_klasses g)
    (_dynamic_preloaded_klasses g).

Definition with_app_initiated_classes (t : ClassesTable) (g : statics)
  : statics :=
  mk_statics (_preloaded_classes g) (_platform_initiated_classes g) t
    (_record_javabase_only g) (_static_preloaded_klasses g)
    (_dynamic_preloaded_klasses g).

Definition with_record_javabase_only (b : bool) (g : statics) : statics :=
  mk_statics (_preloaded_classes g) (_platform_initiated_classes g)
    (_app_initiated_classes g) b (_static_preloaded_klasses g)
    (_dynamic_preloaded_klasses g).

Definition with_static_preloaded_klasses (p : PreloadedKlasses) (g : statics)
  : statics :=
  mk_statics (_preloaded_classes g) (_platform_initiated_classes g)
    (_app_initiated_classes g) (_record_javabase_only g) p
    (_dynamic_preloaded_klasses g).

Definition with_dynamic_preloaded_klasses (p : PreloadedKlasses) (g : statics)
  : statics :=
  mk_statics (_preloaded_classes g) (_platform_initiated_classes g)
    (_app_initiated_classes g) (_record_javabase_only g)
    (_static_preloaded_klasses g) p.

(** [is_preloaded_class] *)
Definition is_preloaded_class (ik : klass) (g : statics) : bool :=
  match table_get (_preloaded_classes g) ik with
  | Some _ => true
  | None => false
  end.

(** [add_unrecorded_initiated_klasses(table, klasses)]: every class goes in
    with [need_to_record = false]. *)
Fixpoint add_unrecorded_initiated_klasses (table : ClassesTable)
  (ks : list klass) : ClassesTable :=
  match ks with
  | [] => table
  | ik :: ks' =>
      add_unrecorded_initiated_klasses (put_when_absent ik false table) ks'
  end.

(** [add_initiated_klass(initiated_classes, loader_name, target)] *)
Definition add_initiated_klass_to (initiated_classes : ClassesTable)
  (target : klass) : ClassesTable :=
  let need_to_record := true in
  fst (put_if_absent target need_to_record initiated_classes).

(** [add_initiated_klass(ik, target)]; a loader of [ik] that is not the
    platform loader is asserted to be the system loader. *)
Definition add_initiated_klass (w : world) (ik target : klass) (g : statics)
  : statics :=
  if shared_class_loader_type w ik =? shared_class_loader_type w target
  then g
  else if is_platform_class_loader_of w ik
  then with_platform_initiated_classes
         (add_initiated_klass_to (_platform_initiated_classes g) target) g
  else with_app_initiated_classes
         (add_initiated_klass_to (_app_initiated_classes g) target) g.

(** [is_in_javabase] *)
Definition is_in_javabase (w : world) (ik : klass) : bool :=
  if is_hidden w ik && is_lambda_form_klass w ik then true
  else
    match module w ik with
    | None => false
    | Some m =>
        match module_name w m with
        | None => false
        | Some n => String.eqb n JavaBaseName.java_base
        end
    end.

(** *** [class PreloadedKlassRecorder] *)

Record PreloadedKlassRecorder := mk_recorder {
  _loader_type  : Z;            (* int *)
  _seen_klasses : list klass;   (* a hashtable used as a set *)
  _list         : list klass    (* GrowableArray<InstanceKlass*> *)
}.

Definition seen (r : PreloadedKlassRecorder) (ik : klass) : bool :=
  existsb (Z.eqb ik) (_seen_klasses r).

(** [_seen_klasses.put_if_absent(ik, true, &created)] *)
Definition see (ik : klass) (r : PreloadedKlassRecorder)
  : PreloadedKlassRecorder * bool :=
  if seen r ik then (r, false)
  else (mk_recorder (_loader_type r) (ik :: _seen_klasses r) (_list r), true).

(** [_list.append(k)] *)
Definition list_append (k : klass) (r : PreloadedKlassRecorder)
  : PreloadedKlassRecorder :=
  mk_recorder (_loader_type r) (_seen_klasses r) (_list r ++ [k]).

(** [loader_type_matches] *)
Definition loader_type_matches (w : world) (r : PreloadedKlassRecorder)
  (ik : klass) : bool :=
  let buffered_ik := get_buffered_addr w ik in
  shared_class_loader_type w buffered_ik =? _loader_type r.

Definition recording := (PreloadedKlassRecorder * statics)%type.

(** The two places where [maybe_record] handles a supertype:
    [maybe_record(s); add_initiated_klass(ik, s);], for the superclass and
    in the loop over the local interfaces. *)
Fixpoint record_supertypes (w : world)
  (maybe_record : klass -> recording -> option recording)
  (ik : klass) (supertypes : list klass) (st : recording)
  : option recording :=
  match supertypes with
  | [] => Some st
  | s :: rest =>
      match maybe_record s st with
      | None => None
      | Some (r, g) =>
          record_supertypes w maybe_record ik rest
            (r, add_initiated_klass w ik s g)
      end
  end.

(** [maybe_record].  The function calls itself on the supertypes; [fuel]
    bounds the depth of these calls and [None] means that it ran out. *)
Fixpoint maybe_record (w : world) (fuel : nat) (ik : klass) (st : recording)
  {struct fuel} : option recording :=
  match fuel with
  | O => None
  | S fuel' =>
      let '(r0, g) := st in
      let '(r, created) := see ik r0 in
      if negb created then Some (r, g)
      else if negb (loader_type_matches w r ik) then Some (r, g)
      else if is_hidden w ik && negb (is_dumping_invokedynamic w)
      then Some (r, g)
      else if is_vm_class w ik then Some (r, g)
      else if (_loader_type r =? BOOT_LOADER w)
              && negb (Bool.eqb (_record_javabase_only g)
                         (is_in_javabase w ik))
      then Some (r, g)
      else if is_shared w ik && is_dumping_dynamic_archive w
      then Some (r, g)
      else if negb (is_hidden w ik)
              && (let scp_entry :=
                    shared_path w (shared_classpath_index w ik) in
                  in_named_module scp_entry
                  && negb (is_modules_image scp_entry))
      then Some (r, g)
      else
        let s := match java_super w ik with
                 | Some s => [s]
                 | None => []
                 end in
        match record_supertypes w (maybe_record w fuel') ik s (r, g) with
        | None => None
        | Some st1 =>
            match record_supertypes w (maybe_record w fuel') ik
                    (local_interfaces w ik) st1 with
            | None => None
            | Some (r2, g2) =>
                Some (list_append (get_buffered_klass w ik) r2,
                      with_preloaded_classes
                        (put_when_absent ik true (_preloaded_classes g2)) g2)
            end
        end
  end.

(** [iterate]: the loop over [ArchiveBuilder::current()->klasses()]. *)
Fixpoint iterate_over (w : world) (fuel : nat) (ks : list klass)
  (st : recording) : option recording :=
  match ks with
  | [] => Some st
  | k :: ks' =>
      if is_instance_klass w k then
        match maybe_record w fuel k st with
        | None => None
        | Some st' => iterate_over w fuel ks' st'
        end
      else iterate_over w fuel ks' st
  end.

Definition iterate (w : world) (fuel : nat) (st : recording)
  : option recording :=
  iterate_over w fuel (klasses w) st.

(** [record_preloaded_klasses(int loader_type)]: a fresh recorder, one
    [iterate], and its list as the archived array. *)
Definition record_preloaded_klasses_of (w : world) (fuel : nat)
  (loader_type : Z) (g : statics) : option (list klass * statics) :=
  let recorder := mk_recorder loader_type [] [] in
  match iterate w fuel (recorder, g) with
  | None => None
  | Some (r, g') => Some (_list r, g')
  end.

(** [PreloadedKlasses* table = is_static_archive ?
    &_static_preloaded_klasses : &_dynamic_preloaded_klasses] and a write
    through it. *)
Definition table_of (is_static_archive : bool) (g : statics)
  : PreloadedKlasses :=
  if is_static_archive then _static_preloaded_klasses g
  else _dynamic_preloaded_klasses g.

Definition with_table (is_static_archive : bool) (p : PreloadedKlasses)
  (g : statics) : statics :=
  if is_static_archive then with_static_preloaded_klasses p g
  else with_dynamic_preloaded_klasses p g.

Definition set_boot (l : list klass) (p : PreloadedKlasses) :=
  mk_tables (Some l) (_boot2 p) (_platform p) (_platform_initiated p)
    (_app p) (_app_initiated p).
Definition set_boot2 (l : list klass) (p : PreloadedKlasses) :=
  mk_tables (_boot p) (Some l) (_platform p) (_platform_initiated p)
    (_app p) (_app_initiated p).
Definition set_platform (l : list klass) (p : PreloadedKlasses) :=
  mk_tables (_boot p) (_boot2 p) (Some l) (_platform_initiated p)
    (_app p) (_app_initiated p).
Definition set_platform_initiated (l : list klass) (p : PreloadedKlasses) :=
  mk_tables (_boot p) (_boot2 p) (_platform p) (Some l)
    (_app p) (_app_initiated p).
Definition set_app (l : list klass) (p : PreloadedKlasses) :=
  mk_tables (_boot p) (_boot2 p) (_platform p) (_platform_initiated p)
    (Some l) (_app_initiated p).
Definition set_app_initiated (l : list klass) (p : PreloadedKlasses) :=
  mk_tables (_boot p) (_boot2 p) (_platform p) (_platform_initiated p)
    (_app p) (Some l).

(** The loop of [add_extra_initiated_klasses]. *)
Fixpoint add_public_boot_and_platform (w : world) (ks : list klass)
  (app_initiated : ClassesTable) : ClassesTable :=
  match ks with
  | [] => app_initiated
  | k :: ks' =>
      add_public_boot_and_platform w ks'
        (if is_instance_klass w k && negb (name_starts_with_jdk_proxy w k)
         then
           if is_public w k
              && (is_shared_boot_class w k || is_shared_platform_class w k)
           then add_initiated_klass_to app_initiated k
           else app_initiated
         else app_initiated)
  end.

(** [add_extra_initiated_klasses(table)]; [table->_app] has been written
    by the caller. *)
Definition add_extra_initiated_klasses (w : world) (table : PreloadedKlasses)
  (g : statics) : statics :=
  match _app table with
  | Some app =>
      if (0 <? Z.of_nat (length app)) then
        with_app_initiated_classes
          (add_public_boot_and_platform w (klasses w)
             (_app_initiated_classes g)) g
      else g
  | None => g
  end.

(** [record_preloaded_klasses(bool is_static_archive)] *)
Definition record_preloaded_klasses (w : world) (fuel : nat)
  (is_static_archive : bool) (g : statics) : option statics :=
  if PreloadSharedClasses w then
    let g := with_record_javabase_only true g in
    match record_preloaded_klasses_of w fuel (BOOT_LOADER w) g with
    | None => None
    | Some (boot, g) =>
    let g := with_table is_static_archive
               (set_boot boot (table_of is_static_archive g)) g in
    let g := with_record_javabase_only false g in
    match record_preloaded_klasses_of w fuel (BOOT_LOADER w) g with
    | None => None
    | Some (boot2, g) =>
    let g := with_table is_static_archive
               (set_boot2 boot2 (table_of is_static_archive g)) g in
    match record_preloaded_klasses_of w fuel (PLATFORM_LOADER w) g with
    | None => None
    | Some (platform, g) =>
    let g := with_table is_static_archive
               (set_platform platform (table_of is_static_archive g)) g in
    match record_preloaded_klasses_of w fuel (APP_LOADER w) g with
    | None => None
    | Some (app, g) =>
    let g := with_table is_static_archive
               (set_app app (table_of is_static_archive g)) g in
    Some (add_extra_initiated_klasses w (table_of is_static_archive g) g)
    end end end end
  else Some g.

(** The collector of [record_initiated_klasses(table)], applied to one
    entry: what it appends, if anything. *)
Definition collect (w : world) (ik : klass) (need_to_record : bool)
  : option klass :=
  if negb need_to_record then None
  else if is_dumping_final_static_archive w || negb (is_shared w ik) then
    if is_excluded_class w ik then None
    else Some (get_buffered_klass w ik)
  else Some ik.

(** [record_initiated_klasses(table)]: [iterate_all] with the collector.
    The entries are visited in the order the table is kept here; the code
    leaves their order to the hashtable. *)
Fixpoint record_initiated_klasses_of (w : world) (table : ClassesTable)
  : list klass :=
  match table with
  | [] => []
  | (ik, need_to_record) :: table' =>
      match collect w ik need_to_record with
      | Some k => k :: record_initiated_klasses_of w table'
      | None => record_initiated_klasses_of w table'
      end
  end.

(** [record_initiated_klasses(bool is_static_archive)] *)
Definition record_initiated_klasses (w : world) (is_static_archive : bool)
  (g : statics) : statics :=
  if PreloadSharedClasses w then
    let g := with_table is_static_archive
               (set_platform_initiated
                  (record_initiated_klasses_of w
                     (_platform_initiated_classes g))
                  (table_of is_static_archive g)) g in
    with_table is_static_archive
      (set_app_initiated
         (record_initiated_klasses_of w (_app_initiated_classes g))
         (table_of is_static_archive g)) g
  else g.

End ClassPreloader.

(** ** What the recorder is expected to produce *)

Module RecorderSpec.

Import ClassPreloader.

(** The direct supertypes that [maybe_record] walks: the superclass, then
    the local interfaces. *)
Definition supertypes (w : world) (ik : klass) : list klass :=
  match java_super w ik with
  | Some s => [s]
  | None => []
  end ++ local_interfaces w ik.

(** A class that none of the early returns of [maybe_record] turns away,
    for a recorder of loader type [lt] while [_record_javabase_only] is
    [javabase_only]. *)
Definition eligible (w : world) (lt : Z) (javabase_only : bool) (ik : klass)
  : bool :=
  (shared_class_loader_type w (get_buffered_addr w ik) =? lt)
  && negb (is_hidden w ik && negb (is_dumping_invokedynamic w))
  && negb (is_vm_class w ik)
  && negb ((lt =? BOOT_LOADER w)
           && negb (Bool.eqb javabase_only (is_in_javabase w ik)))
  && negb (is_shared w ik && is_dumping_dynamic_archive w)
  && negb (negb (is_hidden w ik)
           && (in_named_module (shared_path w (shared_classpath_index w ik))
               && negb (is_modules_image
                          (shared_path w (shared_classpath_index w ik))))).

(** The class hierarchy has no cycle: [rank] goes down along every
    supertype edge. *)
Definition acyclic (w : world) (rank : klass -> nat) : Prop :=
  forall ik s, In s (supertypes w ik) -> (rank s < rank ik)%nat.

(** No class of the list is followed by one of its direct supertypes. *)
Fixpoint supertypes_first (w : world) (l : list klass) : Prop :=
  match l with
  | [] => True
  | x :: rest =>
      (forall s, In s (supertypes w x) -> ~ In s rest)
      /\ supertypes_first w rest
  end.

(** What a stretch of recording from [st] to [st'] did, [new] being the
    classes it appended, in order. *)
Record recorded (w : world) (rank : klass -> nat) (bound : nat)
  (st : recording) (new : list klass) (st' : recording) : Prop :=
  mk_recorded {
    rec_loader_type :
      _loader_type (fst st') = _loader_type (fst st);
    rec_javabase_only :
      _record_javabase_only (snd st') = _record_javabase_only (snd st);
    rec_seen_grows :
      forall x, seen (fst st) x = true -> seen (fst st') x = true;
    rec_list :
      _list (fst st') = _list (fst st) ++ map (get_buffered_klass w) new;
    rec_nodup : NoDup new;
    rec_new :
      forall x, In x new ->
        seen (fst st) x = false /\ seen (fst st') x = true /\
        eligible w (_loader_type (fst st)) (_record_javabase_only (snd st)) x
        = true /\
        (rank x < bound)%nat /\
        (forall s, In s (supertypes w x) -> seen (fst st') s = true);
    rec_order : supertypes_first w new;
    rec_preloaded_grows :
      forall x, is_preloaded_class x (snd st) = true ->
        is_preloaded_class x (snd st') = true;
    rec_preloaded :
      forall x, In x new -> is_preloaded_class x (snd st') = true;
    rec_complete :
      forall x, seen (fst st') x = true -> seen (fst st) x = false ->
        eligible w (_loader_type (fst st)) (_record_javabase_only (snd st)) x
        = true ->
        In x new
  }.

(** A small world: [Object] (10) in java.base, an interface (20) and a
    class (30) that extends [Object] and implements the interface, both
    outside java.base, all three defined by the boot loader; the archive
    builder lists the class first. *)
Definition sample_world : world :=
  mk_world 1 2 3 true false false false
    [30; 20; 10]
    (fun k => k) (fun k => k + 1000)
    (fun _ => true)
    (fun _ => 1)
    (fun _ => false) (fun _ => true) (fun _ => true) (fun _ => false)
    (fun _ => false)
    (fun k => Some k)
    (fun m => if m =? 10 then Some JavaBaseName.java_base else None)
    (fun _ => 0)
    (fun k => if k =? 30 then Some 10 else None)
    (fun k => if k =? 30 then [20] else [])
    (fun _ => false) (fun _ => false) (fun _ => false)
    (fun _ => mk_scp false false)
    (fun _ => false) (fun _ => false).

Definition sample_rank (k : klass) : nat := if k =? 30 then 1%nat else 0%nat.

Definition sample_statics : statics :=
  mk_statics [] [] [] false
    (mk_tables None None None None None None)
    (mk_tables None None None None None None).

End RecorderSpec.

(** * Properties *)

(** ** Machine integers *)

Module MachineIntFacts.

Import MachineInt.

Lemma to_jint_small z : is_jint z -> to_jint z = z.
Proof.
  unfold is_jint, to_jint, wrap_signed. intros H.
  change (2 ^ (32 - 1)) with (2 ^ 31).
  rewrite Z.mod_small; lia.
Qed.

Lemma to_int_small z : is_jint z -> to_int z = z.
Proof. exact (to_jint_small z). Qed.

Lemma to_jint_range z : is_jint (to_jint z).
Proof.
  unfold is_jint, to_jint, wrap_signed.
  change (2 ^ (32 - 1)) with (2 ^ 31).
  pose proof (Z.mod_pos_bound (z + 2 ^ 31) (2 ^ 32) ltac:(lia)). lia.
Qed.

(** A 32-bit value is never its own complement to one: [n = 1 - n] has no
    solution modulo [2 ^ 32]. *)
Lemma to_jint_one_minus_neq n : to_jint (1 - n) <> n.
Proof.
  unfold to_jint, wrap_signed.
  change (2 ^ (32 - 1)) with 2147483648. change (2 ^ 32) with 4294967296.
  intros H.
  pose proof (Z.div_mod (1 - n + 2147483648) 4294967296 ltac:(lia)) as D.
  lia.
Qed.


End MachineIntFacts.

(** ** Admission control of the compile broker *)

Module CompileBrokerFacts.

Import MachineInt MachineIntFacts CompileBroker.

Lemma with_should_compile_new_jobs_same s :
  with_should_compile_new_jobs (_should_compile_new_jobs s) s = s.
Proof. destruct s; reflexivity. Qed.

Lemma with_print_compilation_warning_same s :
  with_print_compilation_warning (_print_compilation_warning s) s = s.
Proof. destruct s; reflexivity. Qed.

(** The compare-and-swap of [set_should_compile_new_jobs] misses exactly
    when the cell does not hold [1 - new_state]; the call then changes
    nothing. *)
Lemma set_should_compile_new_jobs_miss n s :
  _should_compile_new_jobs s <> to_jint (1 - n) ->
  set_should_compile_new_jobs n s = (false, s).
Proof.
  intros H. unfold set_should_compile_new_jobs, Atomic.cmpxchg.
  apply Z.eqb_neq in H. rewrite H. cbv beta iota zeta. rewrite H.
  now rewrite with_should_compile_new_jobs_same.
Qed.

Lemma set_should_compile_new_jobs_hit n s :
  _should_compile_new_jobs s = to_jint (1 - n) ->
  fst (set_should_compile_new_jobs n s) = true /\
  _should_compile_new_jobs (snd (set_should_compile_new_jobs n s)) = n.
Proof.
  intros H. unfold set_should_compile_new_jobs, Atomic.cmpxchg.
  rewrite H, Z.eqb_refl. cbv beta iota zeta. rewrite Z.eqb_refl.
  destruct (n =? run_compilation); split; reflexivity.
Qed.

Lemma set_should_compile_new_jobs_cases n s :
  (fst (set_should_compile_new_jobs n s) = false /\
   snd (set_should_compile_new_jobs n s) = s) \/
  (fst (set_should_compile_new_jobs n s) = true /\
   _should_compile_new_jobs s = to_jint (1 - n) /\
   _should_compile_new_jobs (snd (set_should_compile_new_jobs n s)) = n).
Proof.
  destruct (Z.eq_dec (_should_compile_new_jobs s) (to_jint (1 - n))) as [E|E].
  - right. destruct (set_should_compile_new_jobs_hit n s E). auto.
  - left. rewrite (set_should_compile_new_jobs_miss n s E). auto.
Qed.

Lemma activity_expected_not_shutdown n :
  is_activity n -> shutdown_compilation <> to_jint (1 - n).
Proof.
  intros [ -> | [ -> | -> ] ]; vm_compute; discriminate.
Qed.

(** Asking [set_should_compile_new_jobs] for [shutdown_compilation] expects
    the cell to hold -1: from a value of the enumeration the call misses, so
    the shutdown state is entered through [disable_compilation_forever]. *)
Lemma set_shutdown_misses s :
  is_activity (_should_compile_new_jobs s) ->
  set_should_compile_new_jobs shutdown_compilation s = (false, s).
Proof.
  intros A. apply set_should_compile_new_jobs_miss.
  destruct A as [ -> | [ -> | -> ] ]; vm_compute; discriminate.
Qed.

Lemma shutdown_step c s :
  activity_call c ->
  is_compilation_disabled_forever s = true ->
  is_compilation_disabled_forever (snd (step c s)) = true /\
  (forall n, c = Call_set_should_compile_new_jobs n ->
             fst (step c s) = Ret_bool false).
Proof.
  unfold is_compilation_disabled_forever. intros A H.
  apply Z.eqb_eq in H.
  destruct c as [n| |]; cbn in *.
  - rewrite set_should_compile_new_jobs_miss
      by (rewrite H; now apply activity_expected_not_shutdown).
    cbn. split; [now apply Z.eqb_eq | reflexivity].
  - split; [reflexivity | discriminate].
  - unfold should_print_compiler_warning, Atomic.cmpxchg.
    destruct (_print_compilation_warning s =? 0); cbn;
      (split; [now apply Z.eqb_eq | discriminate]).
Qed.

Lemma run_cons c cs s :
  run (c :: cs) s =
  (fst (step c s) :: fst (run cs (snd (step c s))),
   snd (run cs (snd (step c s)))).
Proof.
  cbn. destruct (step c s) as [r s1]. cbn.
  destruct (run cs s1) as [rs s2]. reflexivity.
Qed.

Lemma shutdown_run cs : forall s,
  Forall activity_call cs ->
  is_compilation_disabled_forever s = true ->
  is_compilation_disabled_forever (snd (run cs s)) = true /\
  Forall (fun b => b = false) (set_results cs (fst (run cs s))).
Proof.
  induction cs as [|c cs IH]; intros s A H.
  - cbn. auto.
  - inversion A as [|? ? Ac Acs]; subst.
    destruct (shutdown_step c s Ac H) as [H1 R].
    destruct (IH _ Acs H1) as [H2 F].
    rewrite run_cons. cbn [fst snd]. split; [exact H2|].
    destruct c as [n| |]; cbn [set_results].
    + rewrite (R n eq_refl). constructor; [reflexivity | exact F].
    + destruct (fst (step Call_disable_compilation_forever s)); exact F.
    + destruct (fst (step Call_should_print_compiler_warning s)); exact F.
Qed.

(** C3.  Shutdown is terminal.  [disable_compilation_forever] leaves
    [_should_compile_new_jobs] at [shutdown_compilation]; from a state
    that holds [shutdown_compilation], a call of
    [set_should_compile_new_jobs] with [run_compilation] or
    [stop_compilation] (or any other value of the enumeration) returns
    [false] and changes nothing, and after any run of calls of the
    admission interface every such call has returned [false] and
    [is_compilation_disabled_forever] is still [true]. *)
Theorem shutdown_is_terminal :
  (forall s0,
      is_compilation_disabled_forever (disable_compilation_forever s0)
      = true) /\
  (forall s n,
      is_compilation_disabled_forever s = true ->
      n = run_compilation \/ n = stop_compilation ->
      set_should_compile_new_jobs n s = (false, s)) /\
  (forall s cs,
      is_compilation_disabled_forever s = true ->
      Forall activity_call cs ->
      is_compilation_disabled_forever (snd (run cs s)) = true /\
      Forall (fun b => b = false) (set_results cs (fst (run cs s)))).
Proof.
  split; [|split].
  - intros s0. reflexivity.
  - intros s n H Hn. apply set_should_compile_new_jobs_miss.
    apply Z.eqb_eq in H. rewrite H.
    apply activity_expected_not_shutdown.
    unfold is_activity. tauto.
  - intros s cs H A. now apply shutdown_run.
Qed.

Lemma shutdown_is_terminal_witness :
  is_compilation_disabled_forever sample_shutdown = true /\
  set_should_compile_new_jobs run_compilation sample_shutdown
  = (false, sample_shutdown) /\
  set_should_compile_new_jobs stop_compilation sample_shutdown
  = (false, sample_shutdown) /\
  Forall activity_call sample_calls /\
  is_compilation_disabled_forever (snd (run sample_calls sample_shutdown))
  = true /\
  Forall (fun b => b = false)
    (set_results sample_calls (fst (run sample_calls sample_shutdown))).
Proof.
  destruct shutdown_is_terminal as [_ [One Run]].
  assert (S : is_compilation_disabled_forever sample_shutdown = true)
    by reflexivity.
  assert (A : Forall activity_call sample_calls)
    by (repeat constructor; unfold is_activity; auto).
  split; [exact S|].
  split; [apply One; [exact S | left; reflexivity]|].
  split; [apply One; [exact S | right; reflexivity]|].
  split; [exact A|].
  exact (Run sample_shutdown sample_calls S A).
Defined.

(** C4.  Setting the admission state twice with the same argument: from
    any state and for any argument, the second of two consecutive calls
    returns [false] and leaves the state as the first call left it; a call
    that returns [false] changes nothing, the two statistics counters
    included, and a call that returns [true] adds one to the restarted
    counter when the argument is [run_compilation] and to the stopped
    counter otherwise, and leaves the other counter alone. *)
Theorem set_should_compile_new_jobs_idempotent :
  (forall n s,
      set_should_compile_new_jobs n (snd (set_should_compile_new_jobs n s))
      = (false, snd (set_should_compile_new_jobs n s))) /\
  (forall n s,
      fst (set_should_compile_new_jobs n s) = false ->
      snd (set_should_compile_new_jobs n s) = s) /\
  (forall n s,
      fst (set_should_compile_new_jobs n s) = true ->
      if n =? run_compilation then
        _total_compiler_restarted_count (snd (set_should_compile_new_jobs n s))
        = to_uint (_total_compiler_restarted_count s + 1) /\
        _total_compiler_stopped_count (snd (set_should_compile_new_jobs n s))
        = _total_compiler_stopped_count s
      else
        _total_compiler_stopped_count (snd (set_should_compile_new_jobs n s))
        = to_uint (_total_compiler_stopped_count s + 1) /\
        _total_compiler_restarted_count (snd (set_should_compile_new_jobs n s))
        = _total_compiler_restarted_count s).
Proof.
  split; [|split].
  - intros n s. apply set_should_compile_new_jobs_miss.
    destruct (set_should_compile_new_jobs_cases n s) as [[_ E]|[_ [_ E]]].
    + rewrite E. intros C.
      destruct (set_should_compile_new_jobs_hit n s C) as [_ C'].
      rewrite E in C'. rewrite C' in C.
      symmetry in C. now apply to_jint_one_minus_neq in C.
    + rewrite E. intros C. symmetry in C.
      now apply to_jint_one_minus_neq in C.
  - intros n s F.
    destruct (set_should_compile_new_jobs_cases n s) as [[_ E]|[T _]].
    + exact E.
    + congruence.
  - intros n s T.
    destruct (Z.eq_dec (_should_compile_new_jobs s) (to_jint (1 - n)))
      as [E|E].
    + clear T. unfold set_should_compile_new_jobs, Atomic.cmpxchg.
      rewrite E, Z.eqb_refl. cbv beta iota zeta. rewrite Z.eqb_refl.
      destruct (n =? run_compilation); split; reflexivity.
    + rewrite (set_should_compile_new_jobs_miss n s E) in T. discriminate.
Qed.

Lemma set_should_compile_new_jobs_idempotent_witness :
  fst (set_should_compile_new_jobs stop_compilation sample_state) = true /\
  set_should_compile_new_jobs stop_compilation
    (snd (set_should_compile_new_jobs stop_compilation sample_state))
  = (false, snd (set_should_compile_new_jobs stop_compilation sample_state))
  /\
  _total_compiler_stopped_count
    (snd (set_should_compile_new_jobs stop_compilation sample_state)) = 1 /\
  _total_compiler_restarted_count
    (snd (set_should_compile_new_jobs stop_compilation sample_state)) = 0 /\
  fst (set_should_compile_new_jobs run_compilation sample_state) = false /\
  snd (set_should_compile_new_jobs run_compilation sample_state)
  = sample_state.
Proof.
  destruct set_should_compile_new_jobs_idempotent as [Twice [Miss Hit]].
  assert (T : fst (set_should_compile_new_jobs stop_compilation sample_state)
              = true) by reflexivity.
  assert (F : fst (set_should_compile_new_jobs run_compilation sample_state)
              = false) by reflexivity.
  split; [exact T|].
  split; [apply Twice|].
  pose proof (Hit stop_compilation sample_state T) as [C1 C2].
  split; [exact C1|]. split; [exact C2|].
  split; [exact F|].
  exact (Miss run_compilation sample_state F).
Defined.

(** *** The compiler warning *)

Lemma should_print_compiler_warning_first s :
  _print_compilation_warning s = 0 ->
  should_print_compiler_warning s
  = (true, with_print_compilation_warning 1 s).
Proof.
  intros H. unfold should_print_compiler_warning, Atomic.cmpxchg.
  rewrite H. reflexivity.
Qed.

Lemma should_print_compiler_warning_later s :
  _print_compilation_warning s <> 0 ->
  should_print_compiler_warning s = (false, s).
Proof.
  intros H. unfold should_print_compiler_warning, Atomic.cmpxchg.
  apply Z.eqb_neq in H. rewrite H. cbv beta iota zeta. rewrite H.
  now rewrite with_print_compilation_warning_same.
Qed.

Lemma set_should_compile_new_jobs_keeps_warning n s :
  _print_compilation_warning (snd (set_should_compile_new_jobs n s))
  = _print_compilation_warning s.
Proof.
  destruct (Z.eq_dec (_should_compile_new_jobs s) (to_jint (1 - n))) as [E|E].
  - unfold set_should_compile_new_jobs, Atomic.cmpxchg.
    rewrite E, Z.eqb_refl. cbv beta iota zeta. rewrite Z.eqb_refl.
    destruct (n =? run_compilation); reflexivity.
  - now rewrite (set_should_compile_new_jobs_miss n s E).
Qed.

Lemma step_set_fst n s :
  fst (step (Call_set_should_compile_new_jobs n) s)
  = Ret_bool (fst (set_should_compile_new_jobs n s)).
Proof. cbn. now destruct (set_should_compile_new_jobs n s). Qed.

Lemma step_set_snd n s :
  snd (step (Call_set_should_compile_new_jobs n) s)
  = snd (set_should_compile_new_jobs n s).
Proof. cbn. now destruct (set_should_compile_new_jobs n s). Qed.

(** Once the flag has left 0, every later call answers [false]. *)
Lemma warning_results_later cs : forall s,
  _print_compilation_warning s <> 0 ->
  warning_results cs (fst (run cs s)) = repeat false (warning_calls cs).
Proof.
  induction cs as [|c cs IH]; intros s H; [reflexivity|].
  rewrite run_cons. cbn [fst snd].
  destruct c as [n| |].
  - rewrite step_set_fst, step_set_snd. cbn [warning_results warning_calls].
    apply IH. now rewrite set_should_compile_new_jobs_keeps_warning.
  - cbn [step fst snd warning_results warning_calls]. apply IH. exact H.
  - cbn [step]. rewrite (should_print_compiler_warning_later s H).
    cbn [fst snd warning_results warning_calls repeat].
    f_equal. now apply IH.
Qed.

Lemma warning_results_first cs : forall s,
  _print_compilation_warning s = 0 ->
  warning_results cs (fst (run cs s)) = first_only (warning_calls cs).
Proof.
  induction cs as [|c cs IH]; intros s H; [reflexivity|].
  rewrite run_cons. cbn [fst snd].
  destruct c as [n| |].
  - rewrite step_set_fst, step_set_snd. cbn [warning_results warning_calls].
    apply IH. now rewrite set_should_compile_new_jobs_keeps_warning.
  - cbn [step fst snd warning_results warning_calls]. apply IH. exact H.
  - cbn [step]. rewrite (should_print_compiler_warning_first s H).
    cbn [fst snd warning_results warning_calls first_only].
    f_equal. apply warning_results_later. cbn. discriminate.
Qed.

Lemma count_true_repeat_false k :
  count_occ bool_dec (repeat false k) true = O.
Proof. induction k; cbn; auto. Qed.

(** C9.  The compiler warning is printed once.  A call of
    [should_print_compiler_warning] that finds [_print_compilation_warning]
    at 0 sets it to 1 and returns [true]; a call that finds anything else
    returns [false] and changes nothing.  In a run of calls of the broker,
    in whatever order the threads' atomic steps fall, that starts with the
    flag at 0, the first call of [should_print_compiler_warning] returns
    [true] and all later ones [false]; from any start at most one call
    returns [true]. *)
Theorem compiler_warning_printed_once :
  (forall s,
      _print_compilation_warning s = 0 ->
      should_print_compiler_warning s
      = (true, with_print_compilation_warning 1 s)) /\
  (forall s,
      _print_compilation_warning s <> 0 ->
      should_print_compiler_warning s = (false, s)) /\
  (forall cs s,
      _print_compilation_warning s = 0 ->
      warning_results cs (fst (run cs s)) = first_only (warning_calls cs)) /\
  (forall cs s,
      (count_occ bool_dec (warning_results cs (fst (run cs s))) true <= 1)%nat).
Proof.
  split; [|split; [|split]].
  - exact should_print_compiler_warning_first.
  - exact should_print_compiler_warning_later.
  - intros cs s. apply warning_results_first.
  - intros cs s.
    destruct (Z.eq_dec (_print_compilation_warning s) 0) as [E|E].
    + rewrite (warning_results_first cs s E).
      destruct (warning_calls cs) as [|k]; cbn; [lia|].
      rewrite count_true_repeat_false. lia.
    + rewrite (warning_results_later cs s E).
      rewrite count_true_repeat_false. lia.
Qed.

Lemma compiler_warning_printed_once_witness :
  _print_compilation_warning sample_state = 0 /\
  should_print_compiler_warning sample_state
  = (true, with_print_compilation_warning 1 sample_state) /\
  _print_compilation_warning (with_print_compilation_warning 1 sample_state)
  <> 0 /\
  should_print_compiler_warning
    (with_print_compilation_warning 1 sample_state)
  = (false, with_print_compilation_warning 1 sample_state) /\
  warning_results sample_calls (fst (run sample_calls sample_state))
  = [true; false].
Proof.
  destruct compiler_warning_printed_once as [First [Later [Run _]]].
  assert (Z0 : _print_compilation_warning sample_state = 0) by reflexivity.
  assert (N0 : _print_compilation_warning
                 (with_print_compilation_warning 1 sample_state) <> 0)
    by (cbn; lia).
  split; [exact Z0|].
  split; [exact (First sample_state Z0)|].
  split; [exact N0|].
  split; [exact (Later _ N0)|].
  exact (Run sample_calls sample_state Z0).
Defined.

(** *** Queue depth *)

(** C7.  [queue_size(comp_level, is_scc)] is the [_size] counter of the
    queue that [compile_queue] selects for the tier, and 0 when
    [compile_queue] returns null: the counter of an absent queue is never
    read. *)
Theorem queue_size_of_selected_queue
  (compile_queue : state -> Z -> bool -> option CompileQueue.t)
  (s : state) (comp_level : Z) (is_scc : bool) :
  (forall q,
      compile_queue s comp_level is_scc = Some q ->
      queue_size compile_queue s comp_level is_scc = CompileQueue._size q) /\
  (compile_queue s comp_level is_scc = None ->
   queue_size compile_queue s comp_level is_scc = 0).
Proof.
  unfold queue_size. split.
  - intros q E. rewrite E. reflexivity.
  - intros E. rewrite E. reflexivity.
Qed.

Lemma queue_size_of_selected_queue_witness :
  sample_compile_queue sample_state 1 false = Some (CompileQueue.mk 5 7 9 4)
  /\
  queue_size sample_compile_queue sample_state 1 false = 5 /\
  sample_compile_queue sample_state 4 false = None /\
  queue_size sample_compile_queue sample_state 4 false = 0.
Proof.
  split; [reflexivity|].
  split.
  - apply (proj1 (queue_size_of_selected_queue
                    sample_compile_queue sample_state 1 false)
             (CompileQueue.mk 5 7 9 4)).
    reflexivity.
  - split; [reflexivity|].
    apply (proj2 (queue_size_of_selected_queue
                    sample_compile_queue sample_state 4 false)).
    reflexivity.
Defined.

End CompileBrokerFacts.

(** ** The tagged root-scan link *)

Module MarkLinkFacts.

Import MachineInt nmethod.

Section PointerWidth.
Variable ptr_bits : Z.
Hypothesis ptr_bits_ge_2 : 2 <= ptr_bits.

Lemma to_uintptr_land z : to_uintptr ptr_bits z = Z.land z (Z.ones ptr_bits).
Proof.
  unfold to_uintptr, wrap_unsigned. rewrite Z.land_ones by lia. reflexivity.
Qed.

Lemma to_uintptr_small z :
  0 <= z < 2 ^ ptr_bits -> to_uintptr ptr_bits z = z.
Proof. intros H. unfold to_uintptr, wrap_unsigned. now apply Z.mod_small. Qed.

Lemma four_le_pow : 4 <= 2 ^ ptr_bits.
Proof.
  change 4 with (2 ^ 2). apply Z.pow_le_mono_r; lia.
Qed.

(** Masking with [~0x3] clears the two low bits and nothing else. *)
Lemma land_mask z :
  0 <= z < 2 ^ ptr_bits ->
  Z.land z (to_uintptr ptr_bits (Z.lnot 3)) = 4 * (z / 4).
Proof.
  intros H. rewrite to_uintptr_land.
  rewrite (Z.land_comm (Z.lnot 3)), Z.land_assoc.
  rewrite <- to_uintptr_land, (to_uintptr_small z H).
  rewrite <- Z.ldiff_land. change 3 with (Z.ones 2).
  rewrite Z.ldiff_ones_r by lia.
  rewrite Z.shiftl_mul_pow2, Z.shiftr_div_pow2 by lia.
  change (2 ^ 2) with 4. lia.
Qed.

Lemma land_3 z : Z.land z 3 = z mod 4.
Proof. change 3 with (Z.ones 2). now rewrite Z.land_ones by lia. Qed.

Lemma aligned_4 z : is_aligned z 4 = true -> 4 * (z / 4) = z.
Proof.
  unfold is_aligned. intros H. apply Z.eqb_eq in H.
  pose proof (Z.div_mod z 4 ltac:(lia)). lia.
Qed.

(** An aligned address and a tag below 4 occupy different bits. *)
Lemma lor_tag k tag :
  0 <= tag < 4 -> Z.lor (4 * k) tag = 4 * k + tag.
Proof.
  intros H.
  assert (D : Z.land (4 * k) tag = 0).
  { apply Z.bits_inj'. intros i Hi. rewrite Z.land_spec, Z.bits_0.
    destruct (Z.lt_ge_cases i 2) as [L|G].
    - replace (4 * k) with (k * 2 ^ 2) by (change (2 ^ 2) with 4; lia).
      rewrite Z.mul_pow2_bits_low by lia. reflexivity.
    - rewrite (Z.bits_above_log2 tag i), andb_false_r; [reflexivity|lia|].
      destruct (Z.eq_dec tag 0) as [->|N]; [cbn; lia|].
      apply Z.lt_le_trans with 2; [|exact G].
      apply Z.log2_lt_pow2; [lia|]. change (2 ^ 2) with 4. lia. }
  rewrite <- Z.lxor_lor by exact D.
  symmetry. now apply Z.add_nocarry_lxor.
Qed.

Lemma mark_link_value nm tag :
  0 <= nm < 2 ^ ptr_bits -> is_aligned nm 4 = true -> 0 <= tag < 4 ->
  mark_link ptr_bits nm tag = nm + tag.
Proof.
  intros R A T. unfold mark_link.
  pose proof four_le_pow as P.
  rewrite (to_uintptr_small nm R), (to_uintptr_small tag) by lia.
  rewrite (land_mask nm R), lor_tag by exact T.
  now rewrite (aligned_4 nm A).
Qed.

Lemma mark_link_range nm tag :
  0 <= nm < 2 ^ ptr_bits -> is_aligned nm 4 = true -> 0 <= tag < 4 ->
  0 <= mark_link ptr_bits nm tag < 2 ^ ptr_bits.
Proof.
  intros R A T. rewrite (mark_link_value nm tag R A T).
  pose proof (aligned_4 nm A) as E.
  assert (P : 2 ^ ptr_bits = 4 * 2 ^ (ptr_bits - 2)).
  { change 4 with (2 ^ 2). rewrite <- Z.pow_add_r by lia.
    f_equal. lia. }
  lia.
Qed.

End PointerWidth.

Lemma extract_state_mod ptr_bits link :
  extract_state ptr_bits link = to_uintptr ptr_bits link mod 4.
Proof.
  unfold extract_state, to_uint, wrap_unsigned. rewrite land_3.
  apply Z.mod_small.
  pose proof (Z.mod_pos_bound (to_uintptr ptr_bits link) 4 ltac:(lia)).
  change (2 ^ 32) with 4294967296. lia.
Qed.

(** C5.  The tagged link round-trips.  For a pointer-sized address [nm]
    that is aligned to 4 bytes and each of the four claim tags,
    [mark_link]'s assertions hold, [extract_state] of the link is the tag,
    [extract_nmethod] of the link is [nm], and the link is itself a
    pointer-sized word. *)
Theorem mark_link_round_trip (ptr_bits nm tag : Z) :
  2 <= ptr_bits ->
  0 <= nm < 2 ^ ptr_bits ->
  is_aligned nm 4 = true ->
  In tag [claim_weak_request_tag; claim_weak_done_tag;
          claim_strong_request_tag; claim_strong_done_tag] ->
  mark_link_assert nm tag = true /\
  extract_state ptr_bits (mark_link ptr_bits nm tag) = tag /\
  extract_nmethod ptr_bits (mark_link ptr_bits nm tag) = nm /\
  0 <= mark_link ptr_bits nm tag < 2 ^ ptr_bits.
Proof.
  intros W R A I.
  assert (T : 0 <= tag < 4).
  { cbn in I. unfold claim_weak_request_tag, claim_weak_done_tag,
      claim_strong_request_tag, claim_strong_done_tag in I. lia. }
  pose proof (mark_link_range ptr_bits W nm tag R A T) as MR.
  pose proof (mark_link_value ptr_bits W nm tag R A T) as MV.
  pose proof (aligned_4 nm A) as E.
  repeat split; try apply MR.
  - unfold mark_link_assert, claim_strong_done_tag. rewrite A.
    apply andb_true_iff. split; [apply Z.leb_le; lia | reflexivity].
  - rewrite extract_state_mod, (to_uintptr_small ptr_bits _ MR), MV.
    clear MV MR. Z.div_mod_to_equations. lia.
  - unfold extract_nmethod.
    rewrite (to_uintptr_small ptr_bits _ MR).
    rewrite (land_mask ptr_bits W _ MR), MV.
    clear MV MR. Z.div_mod_to_equations. lia.
Qed.

Lemma mark_link_round_trip_witness :
  2 <= 64 /\
  0 <= 4096 < 2 ^ 64 /\
  is_aligned 4096 4 = true /\
  In claim_strong_request_tag
     [claim_weak_request_tag; claim_weak_done_tag;
      claim_strong_request_tag; claim_strong_done_tag] /\
  mark_link_assert 4096 claim_strong_request_tag = true /\
  extract_state 64 (mark_link 64 4096 claim_strong_request_tag)
  = claim_strong_request_tag /\
  extract_nmethod 64 (mark_link 64 4096 claim_strong_request_tag) = 4096 /\
  0 <= mark_link 64 4096 claim_strong_request_tag < 2 ^ 64.
Proof.
  assert (W : 2 <= 64) by lia.
  assert (R : 0 <= 4096 < 2 ^ 64) by (split; [lia | reflexivity]).
  assert (A : is_aligned 4096 4 = true) by reflexivity.
  assert (I : In claim_strong_request_tag
                [claim_weak_request_tag; claim_weak_done_tag;
                 claim_strong_request_tag; claim_strong_done_tag])
    by (cbn; auto).
  split; [exact W|]. split; [exact R|]. split; [exact A|].
  split; [exact I|].
  exact (mark_link_round_trip 64 4096 claim_strong_request_tag W R A I).
Defined.

(** C6.  The tags are numbered in the order weak request, weak done,
    strong request, strong done, and for every link value
    [oops_do_has_any_strong_state] holds exactly when [extract_state]
    gives [claim_strong_request_tag] or [claim_strong_done_tag]. *)
Theorem strong_states_are_the_upper_tags :
  claim_weak_request_tag < claim_weak_done_tag /\
  claim_weak_done_tag < claim_strong_request_tag /\
  claim_strong_request_tag < claim_strong_done_tag /\
  (forall ptr_bits link,
      oops_do_has_any_strong_state ptr_bits link = true <->
      (extract_state ptr_bits link = claim_strong_request_tag \/
       extract_state ptr_bits link = claim_strong_done_tag)).
Proof.
  unfold claim_weak_request_tag, claim_weak_done_tag,
    claim_strong_request_tag, claim_strong_done_tag.
  repeat split; try lia.
  - unfold oops_do_has_any_strong_state, claim_strong_request_tag.
    intros H. rewrite Z.geb_le in H.
    rewrite extract_state_mod in *.
    pose proof (Z.mod_pos_bound (to_uintptr ptr_bits link) 4 ltac:(lia)).
    lia.
  - unfold oops_do_has_any_strong_state, claim_strong_request_tag.
    intros H. rewrite Z.geb_le. lia.
Qed.

Lemma strong_states_are_the_upper_tags_witness :
  oops_do_has_any_strong_state 64 4099 = true /\
  (extract_state 64 4099 = claim_strong_request_tag \/
   extract_state 64 4099 = claim_strong_done_tag).
Proof.
  assert (S : oops_do_has_any_strong_state 64 4099 = true) by reflexivity.
  split; [exact S|].
  destruct strong_states_are_the_upper_tags as [_ [_ [_ Iff]]].
  exact (proj1 (Iff 64 4099) S).
Defined.

End MarkLinkFacts.

(** ** Embedded tables of an nmethod *)

Module TableFacts.

Import MachineInt MachineIntFacts nmethod.

Section Tables.
Variable slot : Z.
Hypothesis slot_gt_1 : 1 < slot.

(** Quotient and index arithmetic of a table of [size] bytes whose slots
    are [slot] bytes wide. *)
Lemma count_no_wrap size :
  0 <= size -> is_jint size -> is_jint (Z.quot size slot + 1).
Proof.
  unfold is_jint. intros P [_ U].
  rewrite Z.quot_div_nonneg by lia.
  assert (size / slot <= size / 2)
    by (apply Z.div_le_compat_l; lia).
  assert (size / 2 < 2 ^ 30)
    by (apply Z.div_lt_upper_bound; [lia|];
        change (2 * 2 ^ 30) with (2 ^ 31); lia).
  split; [|change (2 ^ 31) with (2 * 2 ^ 30); lia].
  pose proof (Z.div_pos size slot P ltac:(lia)).
  change (2 ^ 31) with 2147483648. lia.
Qed.

Lemma exact_slots size :
  0 <= size -> Z.rem size slot = 0 -> slot * Z.quot size slot = size.
Proof.
  intros P R. pose proof (Z.quot_rem' size slot). lia.
Qed.
End Tables.

(** An index below [oops_count()] addresses a slot of the oop table. *)
Lemma oop_addr_at_below_count oopSize nm index :
  1 < oopSize ->
  0 <= oops_end nm - oops_begin nm < 2 ^ 31 ->
  oops_count_assert oopSize nm = true ->
  0 < index < oops_count oopSize nm ->
  oop_addr_at oopSize nm index = oops_begin nm + (index - 1) * oopSize /\
  oops_contains nm (oop_addr_at oopSize nm index) = true.
Proof.
  intros S R A I.
  assert (J : is_jint (oops_end nm - oops_begin nm))
    by (unfold is_jint; change (2 ^ 31) with 2147483648 in *; lia).
  unfold oops_count_assert, oops_count, oops_size in *.
  rewrite (to_int_small _ J) in *.
  apply Z.eqb_eq in A.
  pose proof (exact_slots oopSize _ (proj1 R) A) as E.
  pose proof (count_no_wrap oopSize S _ (proj1 R) J) as C.
  rewrite (to_int_small _ C) in I.
  assert (Q : 0 <= Z.quot (oops_end nm - oops_begin nm) oopSize)
    by (apply Z.quot_pos; lia).
  assert (K : is_jint (index - 1))
    by (unfold is_jint in *; change (2 ^ 31) with 2147483648 in *; lia).
  unfold oop_addr_at, oops_contains.
  rewrite (to_int_small _ K). split; [reflexivity|].
  apply andb_true_iff. split; [apply Z.leb_le | apply Z.ltb_lt]; nia.
Qed.

(** The index [oops_count()] passes the assertion of [oop_addr_at] and
    addresses [oops_end()], the first byte after the oop table. *)
Lemma oop_addr_at_count oopSize nm :
  1 < oopSize ->
  0 <= oops_end nm - oops_begin nm < 2 ^ 31 ->
  oops_count_assert oopSize nm = true ->
  oop_addr_at_assert oopSize nm (oops_count oopSize nm) = true /\
  oop_addr_at oopSize nm (oops_count oopSize nm) = oops_end nm /\
  oops_contains nm (oop_addr_at oopSize nm (oops_count oopSize nm)) = false.
Proof.
  intros S R A.
  assert (J : is_jint (oops_end nm - oops_begin nm))
    by (unfold is_jint; change (2 ^ 31) with 2147483648 in *; lia).
  unfold oop_addr_at_assert, oop_addr_at.
  unfold oops_count_assert, oops_count, oops_size in *.
  rewrite (to_int_small _ J) in *.
  apply Z.eqb_eq in A.
  pose proof (exact_slots oopSize _ (proj1 R) A) as E.
  pose proof (count_no_wrap oopSize S _ (proj1 R) J) as C.
  rewrite (to_int_small _ C).
  assert (Q : 0 <= Z.quot (oops_end nm - oops_begin nm) oopSize)
    by (apply Z.quot_pos; lia).
  assert (K : is_jint (Z.quot (oops_end nm - oops_begin nm) oopSize + 1 - 1))
    by (unfold is_jint in *; change (2 ^ 31) with 2147483648 in *; lia).
  rewrite (to_int_small _ K).
  assert (L : oops_begin nm
              + (Z.quot (oops_end nm - oops_begin nm) oopSize + 1 - 1)
                * oopSize = oops_end nm) by lia.
  rewrite L. split; [|split; [reflexivity|]].
  - apply andb_true_iff. split; [apply Z.gtb_lt | apply Z.leb_le]; lia.
  - unfold oops_contains. rewrite Z.ltb_irrefl. apply andb_false_r.
Qed.

(** The same two facts for the metadata table. *)
Lemma metadata_addr_at_below_count wordSize nm index :
  1 < wordSize ->
  0 <= metadata_end nm - metadata_begin nm < 2 ^ 31 ->
  metadata_count_assert wordSize nm = true ->
  0 < index < metadata_count wordSize nm ->
  metadata_addr_at wordSize nm index
  = metadata_begin nm + (index - 1) * wordSize /\
  metadata_contains nm (metadata_addr_at wordSize nm index) = true.
Proof.
  intros S R A I.
  assert (J : is_jint (metadata_end nm - metadata_begin nm))
    by (unfold is_jint; change (2 ^ 31) with 2147483648 in *; lia).
  unfold metadata_count_assert, metadata_count, metadata_size in *.
  rewrite (to_int_small _ J) in *.
  apply Z.eqb_eq in A.
  pose proof (exact_slots wordSize _ (proj1 R) A) as E.
  pose proof (count_no_wrap wordSize S _ (proj1 R) J) as C.
  rewrite (to_int_small _ C) in I.
  assert (Q : 0 <= Z.quot (metadata_end nm - metadata_begin nm) wordSize)
    by (apply Z.quot_pos; lia).
  assert (K : is_jint (index - 1))
    by (unfold is_jint in *; change (2 ^ 31) with 2147483648 in *; lia).
  unfold metadata_addr_at, metadata_contains.
  rewrite (to_int_small _ K). split; [reflexivity|].
  apply andb_true_iff. split; [apply Z.leb_le | apply Z.ltb_lt]; nia.
Qed.

Lemma metadata_addr_at_count wordSize nm :
  1 < wordSize ->
  0 <= metadata_end nm - metadata_begin nm < 2 ^ 31 ->
  metadata_count_assert wordSize nm = true ->
  metadata_addr_at_assert wordSize nm (metadata_count wordSize nm) = true /\
  metadata_addr_at wordSize nm (metadata_count wordSize nm)
  = metadata_end nm /\
  metadata_contains nm
    (metadata_addr_at wordSize nm (metadata_count wordSize nm)) = false.
Proof.
  intros S R A.
  assert (J : is_jint (metadata_end nm - metadata_begin nm))
    by (unfold is_jint; change (2 ^ 31) with 2147483648 in *; lia).
  unfold metadata_addr_at_assert, metadata_addr_at.
  unfold metadata_count_assert, metadata_count, metadata_size in *.
  rewrite (to_int_small _ J) in *.
  apply Z.eqb_eq in A.
  pose proof (exact_slots wordSize _ (proj1 R) A) as E.
  pose proof (count_no_wrap wordSize S _ (proj1 R) J) as C.
  rewrite (to_int_small _ C).
  assert (Q : 0 <= Z.quot (metadata_end nm - metadata_begin nm) wordSize)
    by (apply Z.quot_pos; lia).
  assert (K : is_jint
                (Z.quot (metadata_end nm - metadata_begin nm) wordSize
                 + 1 - 1))
    by (unfold is_jint in *; change (2 ^ 31) with 2147483648 in *; lia).
  rewrite (to_int_small _ K).
  assert (L : metadata_begin nm
              + (Z.quot (metadata_end nm - metadata_begin nm) wordSize
                 + 1 - 1) * wordSize = metadata_end nm) by lia.
  rewrite L. split; [|split; [reflexivity|]].
  - apply andb_true_iff. split; [apply Z.gtb_lt | apply Z.leb_le]; lia.
  - unfold metadata_contains. rewrite Z.ltb_irrefl. apply andb_false_r.
Qed.

(** C8, at the sample nmethod (two oop slots and two metadata slots of 8
    bytes): [oops_count()] is 3, the index 3 passes the assertion of
    [oop_addr_at], and [oop_addr_at(3)] is [oops_end()], which
    [oops_contains] rejects; the index 2 is the last one whose address
    [oops_contains] accepts.  The metadata table behaves the same. *)
Theorem addr_at_count_is_past_the_table :
  (oops_count_assert sample_oopSize sample = true /\
   oops_count sample_oopSize sample = 3 /\
   oop_addr_at_assert sample_oopSize sample 3 = true /\
   oop_addr_at sample_oopSize sample 3 = oops_begin sample + (3 - 1) * 8 /\
   oop_addr_at sample_oopSize sample 3 = oops_end sample /\
   oops_contains sample (oop_addr_at sample_oopSize sample 3) = false /\
   oops_contains sample (oop_addr_at sample_oopSize sample 2) = true) /\
  (metadata_count_assert sample_wordSize sample = true /\
   metadata_count sample_wordSize sample = 3 /\
   metadata_addr_at_assert sample_wordSize sample 3 = true /\
   metadata_addr_at sample_wordSize sample 3
   = metadata_begin sample + (3 - 1) * 8 /\
   metadata_addr_at sample_wordSize sample 3 = metadata_end sample /\
   metadata_contains sample (metadata_addr_at sample_wordSize sample 3)
   = false /\
   metadata_contains sample (metadata_addr_at sample_wordSize sample 2)
   = true).
Proof. vm_compute. repeat split. Qed.

End TableFacts.

(** ** Install state and unlinked flag of an nmethod *)

Module LifeCycleFacts.

Import nmethod.

Create HintDb life_cycle.
#[local] Hint Constructors life_cycle_edge : life_cycle.

(** [try_transition] answers [true] exactly when it moved the state along
    one edge of the life cycle to [new_state]; otherwise the nmethod is
    left as it was. *)
Lemma try_transition_cases new_state nm :
  (fst (try_transition new_state nm) = true /\
   life_cycle_edge (_state nm) new_state /\
   snd (try_transition new_state nm) = with_state new_state nm) \/
  (fst (try_transition new_state nm) = false /\
   ~ life_cycle_edge (_state nm) new_state /\
   snd (try_transition new_state nm) = nm).
Proof.
  destruct nm as [? ? ? ? ? ? ? ? ? ? st].
  destruct new_state, st; cbn;
    solve [ left; auto with life_cycle
          | right; repeat split; intros E; inversion E ].
Qed.

Lemma try_transition_step new_state nm :
  _state (snd (try_transition new_state nm)) = _state nm \/
  life_cycle_edge (_state nm) (_state (snd (try_transition new_state nm))).
Proof.
  destruct (try_transition_cases new_state nm) as [[_ [E ->]]|[_ [_ ->]]].
  - right. destruct nm; exact E.
  - left. reflexivity.
Qed.

Lemma apply_step o nm :
  _state (apply o nm) = _state nm \/
  life_cycle_edge (_state nm) (_state (apply o nm)).
Proof.
  destruct o; cbn [apply];
    try (left; destruct nm; reflexivity);
    apply try_transition_step.
Qed.

Lemma edge_rank a b : life_cycle_edge a b -> rank a < rank b.
Proof. intros E; inversion E; cbn; lia. Qed.

Lemma edge_not_from_retired a b : life_cycle_edge a b -> ~ retired a.
Proof. intros E [R|R]; subst; inversion E. Qed.

Lemma apply_retired o nm :
  retired (_state nm) -> _state (apply o nm) = _state nm.
Proof.
  intros R. destruct (apply_step o nm) as [E|E]; [exact E|].
  now apply edge_not_from_retired in E.
Qed.

Lemma run_retired os : forall nm,
  retired (_state nm) -> _state (run os nm) = _state nm.
Proof.
  induction os as [|o os IH]; intros nm R; [reflexivity|].
  cbn [run]. pose proof (apply_retired o nm R) as E.
  rewrite IH; [exact E | now rewrite E].
Qed.

Lemma run_rank os : forall nm, rank (_state nm) <= rank (_state (run os nm)).
Proof.
  induction os as [|o os IH]; intros nm; [cbn; lia|].
  cbn [run]. specialize (IH (apply o nm)).
  destruct (apply_step o nm) as [E|E].
  - rewrite E in IH. exact IH.
  - apply edge_rank in E. lia.
Qed.

Lemma run_app os1 os2 nm : run (os1 ++ os2) nm = run os2 (run os1 nm).
Proof.
  revert nm. induction os1 as [|o os1 IH]; intros nm; [reflexivity|].
  cbn. apply IH.
Qed.

(** C2.  The install state only moves along
    [not_installed -> in_use -> {not_used, not_entrant}].  Each of
    [try_transition], [make_in_use], [make_not_entrant] and
    [make_not_used] returns [true] exactly when it moved the state along
    one edge of that order, and otherwise changes nothing; no operation on
    an nmethod changes the state in any other way; a state that is
    [not_used] or [not_entrant] stays what it is under every run of
    operations; and an nmethod that was [in_use] and has left that state
    is not [in_use] after any further operations. *)
Theorem install_state_is_monotonic :
  (forall new_state nm,
      (fst (try_transition new_state nm) = true /\
       life_cycle_edge (_state nm) new_state /\
       snd (try_transition new_state nm) = with_state new_state nm) \/
      (fst (try_transition new_state nm) = false /\
       snd (try_transition new_state nm) = nm)) /\
  (forall nm,
      make_in_use nm = try_transition in_use nm /\
      make_not_used nm = try_transition not_used nm /\
      make_not_entrant true nm = try_transition not_entrant nm /\
      make_not_entrant false nm = try_transition not_used nm) /\
  (forall o nm,
      _state (apply o nm) = _state nm \/
      life_cycle_edge (_state nm) (_state (apply o nm))) /\
  (forall os nm,
      retired (_state nm) -> _state (run os nm) = _state nm) /\
  (forall os1 os2 nm,
      _state nm = in_use ->
      _state (run os1 nm) <> in_use ->
      _state (run (os1 ++ os2) nm) <> in_use).
Proof.
  split; [|split; [|split; [|split]]].
  - intros new_state nm.
    destruct (try_transition_cases new_state nm) as [H|[F [_ E]]]; auto.
  - intros nm. repeat split.
  - exact apply_step.
  - exact run_retired.
  - intros os1 os2 nm U L. rewrite run_app.
    assert (R : retired (_state (run os1 nm))).
    { pose proof (run_rank os1 nm) as M. rewrite U in M. cbn in M.
      unfold retired. destruct (_state (run os1 nm)); cbn in M;
        try lia; try congruence; auto. }
    rewrite (run_retired os2 _ R).
    destruct R as [R|R]; rewrite R; discriminate.
Qed.

Lemma install_state_is_monotonic_witness :
  retired (_state (run [Op_make_in_use; Op_make_not_used] sample)) /\
  _state (run [Op_make_in_use; Op_make_not_entrant true; Op_make_in_use]
            (run [Op_make_in_use; Op_make_not_used] sample))
  = not_used /\
  _state (run [Op_make_in_use] sample) = in_use /\
  _state (run [Op_make_not_entrant true] (run [Op_make_in_use] sample))
  <> in_use /\
  _state (run ([Op_make_not_entrant true] ++ [Op_make_in_use; Op_make_in_use])
            (run [Op_make_in_use] sample))
  <> in_use.
Proof.
  destruct install_state_is_monotonic as [_ [_ [_ [Absorbing Left]]]].
  assert (R : retired (_state (run [Op_make_in_use; Op_make_not_used] sample)))
    by (left; reflexivity).
  assert (U : _state (run [Op_make_in_use] sample) = in_use) by reflexivity.
  assert (L : _state (run [Op_make_not_entrant true]
                        (run [Op_make_in_use] sample)) <> in_use)
    by (cbn; discriminate).
  split; [exact R|].
  split; [exact (Absorbing _ _ R)|].
  split; [exact U|].
  split; [exact L|].
  exact (Left _ [Op_make_in_use; Op_make_in_use] _ U L).
Defined.

(** *** The unlinked flag *)

Lemma try_transition_unlinked new_state nm :
  _is_unlinked (snd (try_transition new_state nm)) = _is_unlinked nm.
Proof.
  destruct (try_transition_cases new_state nm) as [[_ [_ ->]]|[_ [_ ->]]];
    [destruct nm|]; reflexivity.
Qed.

Lemma apply_unlinked o nm :
  is_unlinked nm = true -> is_unlinked (apply o nm) = true.
Proof.
  unfold is_unlinked. intros H.
  destruct o; cbn [apply];
    try (unfold make_in_use, make_not_used, make_not_entrant;
         rewrite try_transition_unlinked; exact H);
    destruct nm; cbn in *; auto.
Qed.

Lemma run_unlinked os : forall nm,
  is_unlinked nm = true -> is_unlinked (run os nm) = true.
Proof.
  induction os as [|o os IH]; intros nm H; [exact H|].
  cbn [run]. apply IH. now apply apply_unlinked.
Qed.

Lemma run_debug_run os : forall nm nm',
  run_debug os nm = Some nm' -> nm' = run os nm.
Proof.
  induction os as [|o os IH]; intros nm nm' H; cbn in *.
  - congruence.
  - destruct (asserts o nm); [now apply IH | discriminate].
Qed.

(** C10.  The unlinked flag is set at most once and never cleared.
    [set_is_unlinked] asserts that [is_unlinked()] is [false] and leaves
    it [true]; an nmethod for which [is_unlinked()] is [true] keeps it
    [true] through every run of operations, with assertions compiled out
    or in; and with assertions compiled in a second [set_is_unlinked]
    stops at its assertion. *)
Theorem unlinked_is_set_once :
  (forall nm, set_is_unlinked_assert nm = negb (is_unlinked nm)) /\
  (forall nm, is_unlinked (set_is_unlinked nm) = true) /\
  (forall os nm,
      is_unlinked nm = true -> is_unlinked (run os nm) = true) /\
  (forall os nm nm',
      is_unlinked nm = true ->
      run_debug os nm = Some nm' -> is_unlinked nm' = true) /\
  (forall os nm,
      is_unlinked nm = true ->
      run_debug (Op_set_is_unlinked :: os) nm = None).
Proof.
  split; [|split; [|split; [|split]]].
  - reflexivity.
  - reflexivity.
  - exact run_unlinked.
  - intros os nm nm' H R. apply run_debug_run in R. subst nm'.
    now apply run_unlinked.
  - intros os nm H. cbn. unfold set_is_unlinked_assert.
    unfold is_unlinked in H. now rewrite H.
Qed.

Lemma unlinked_is_set_once_witness :
  is_unlinked (set_is_unlinked sample) = true /\
  is_unlinked
    (run [Op_set_osr_link 8192; Op_make_in_use; Op_set_is_unlinked;
          Op_make_not_entrant true] (set_is_unlinked sample)) = true /\
  run_debug [Op_set_osr_link 8192; Op_make_in_use] (set_is_unlinked sample)
  = Some (run [Op_set_osr_link 8192; Op_make_in_use] (set_is_unlinked sample))
  /\
  is_unlinked
    (run [Op_set_osr_link 8192; Op_make_in_use] (set_is_unlinked sample))
  = true /\
  run_debug [Op_set_is_unlinked; Op_make_in_use] (set_is_unlinked sample)
  = None.
Proof.
  destruct unlinked_is_set_once as [_ [Sets [Runs [Debug Twice]]]].
  pose proof (Sets sample) as U.
  assert (D : run_debug [Op_set_osr_link 8192; Op_make_in_use]
                (set_is_unlinked sample)
              = Some (run [Op_set_osr_link 8192; Op_make_in_use]
                        (set_is_unlinked sample))) by reflexivity.
  split; [exact U|].
  split; [exact (Runs _ _ U)|].
  split; [exact D|].
  split; [exact (Debug _ _ _ U D)|].
  exact (Twice _ _ U).
Defined.

End LifeCycleFacts.

(** ** The method name kept by the compiler counters *)

Module CompilerCountersFacts.

Import CompilerCounters.

Lemma strncpy_bytes_length src : forall n, length (strncpy_bytes src n) = n.
Proof.
  intros n. revert src. induction n as [|n IH]; intros src; [reflexivity|].
  cbn [strncpy_bytes]. destruct src as [|b src].
  - apply repeat_length.
  - destruct (Byte.eqb b x00); [apply repeat_length|].
    cbn [length]. now rewrite IH.
Qed.

(** Only the string at [src] is copied, not what follows its NUL. *)
Lemma strncpy_bytes_c_str src : forall n,
  strncpy_bytes (c_str src) n = strncpy_bytes src n.
Proof.
  intros n. revert src. induction n as [|n IH]; intros src; [reflexivity|].
  destruct src as [|b src]; [reflexivity|].
  cbn [strncpy_bytes c_str].
  destruct (Byte.eqb b x00) eqn:E; [reflexivity|].
  cbn [strncpy_bytes]. rewrite E. now rewrite IH.
Qed.

(** Read back behind a NUL, the copied bytes are the string cut at [n]. *)
Lemma c_str_strncpy_bytes src : forall n,
  c_str (strncpy_bytes src n ++ [x00]) = firstn n (c_str src).
Proof.
  intros n. revert src. induction n as [|n IH]; intros src; [reflexivity|].
  cbn [strncpy_bytes]. destruct src as [|b src]; [reflexivity|].
  cbn [c_str]. destruct (Byte.eqb b x00) eqn:E; [reflexivity|].
  cbn [app c_str firstn]. rewrite E. now rewrite IH.
Qed.

Lemma array_store_app p q v :
  array_store (p ++ q) (length p) v = p ++ array_store q 0 v.
Proof.
  induction p as [|b p IH]; cbn.
  - destruct q; reflexivity.
  - now rewrite IH.
Qed.

Lemma skipn_all_but_one (a : list byte) n :
  length a = S n -> exists d, skipn n a = [d].
Proof.
  revert a. induction n as [|n IH]; intros a H.
  - destruct a as [|d [|? ?]]; try discriminate. now exists d.
  - destruct a as [|b a]; [discriminate|]. cbn. apply IH. now injection H.
Qed.

(** The buffer after [set_current_method]: the copied bytes and the NUL
    stored behind them. *)
Lemma set_current_method_buffer method c :
  length (_current_method c) = cmname_buffer_length ->
  current_method (set_current_method method c)
  = strncpy_bytes method (cmname_buffer_length - 1) ++ [x00].
Proof.
  intros H. unfold current_method, set_current_method, strncpy.
  cbn [_current_method].
  destruct (skipn_all_but_one (_current_method c) (cmname_buffer_length - 1) H)
    as [d ->].
  rewrite <- (strncpy_bytes_length method (cmname_buffer_length - 1)) at 2.
  now rewrite array_store_app.
Qed.

(** X1.  What [current_method()] reads back after
    [set_current_method(method)] on the 160-byte buffer: the buffer still
    has 160 bytes, its last byte is NUL, and the string in it is the string
    at [method] cut to 159 characters; a name of fewer than 160 characters
    is read back unchanged. *)
Theorem current_method_reads_back_the_name method c :
  length (_current_method c) = cmname_buffer_length ->
  length (current_method (set_current_method method c))
  = cmname_buffer_length /\
  nth (cmname_buffer_length - 1)
    (current_method (set_current_method method c)) x01 = x00 /\
  c_str (current_method (set_current_method method c))
  = firstn (cmname_buffer_length - 1) (c_str method) /\
  ((length (c_str method) < cmname_buffer_length)%nat ->
   c_str (current_method (set_current_method method c)) = c_str method).
Proof.
  intros H. rewrite (set_current_method_buffer method c H).
  pose proof (strncpy_bytes_length method (cmname_buffer_length - 1)) as L.
  repeat split.
  - rewrite length_app, L. reflexivity.
  - rewrite app_nth2 by (rewrite L; apply Nat.le_refl).
    rewrite L, Nat.sub_diag. reflexivity.
  - apply c_str_strncpy_bytes.
  - intros S. rewrite c_str_strncpy_bytes. apply firstn_all2.
    unfold cmname_buffer_length in *. lia.
Qed.

Lemma current_method_reads_back_the_name_witness :
  length (_current_method sample) = cmname_buffer_length /\
  (length (c_str sample_name) < cmname_buffer_length)%nat /\
  c_str (current_method (set_current_method sample_name sample))
  = [x72; x75; x6e].
Proof.
  assert (H : length (_current_method sample) = cmname_buffer_length)
    by reflexivity.
  assert (S : (length (c_str sample_name) < cmname_buffer_length)%nat)
    by (vm_compute; lia).
  split; [exact H|]. split; [exact S|].
  exact (proj2 (proj2 (proj2
           (current_method_reads_back_the_name sample_name sample H))) S).
Defined.

(** X2.  [set_current_method] leaves nothing of the old name behind and
    takes nothing from behind the new one: the whole buffer after the call
    is decided by the string at [method], whatever the buffer held before
    and whatever follows the NUL of [method] in memory; the compile type is
    not touched. *)
Theorem set_current_method_depends_on_the_name_only method1 method2 c1 c2 :
  length (_current_method c1) = cmname_buffer_length ->
  length (_current_method c2) = cmname_buffer_length ->
  c_str method1 = c_str method2 ->
  current_method (set_current_method method1 c1)
  = current_method (set_current_method method2 c2) /\
  compile_type (set_current_method method1 c1) = compile_type c1.
Proof.
  intros H1 H2 E. split; [|reflexivity].
  rewrite (set_current_method_buffer method1 c1 H1).
  rewrite (set_current_method_buffer method2 c2 H2).
  rewrite <- (strncpy_bytes_c_str method1), <- (strncpy_bytes_c_str method2).
  now rewrite E.
Qed.

Lemma set_current_method_depends_on_the_name_only_witness :
  length (_current_method sample) = cmname_buffer_length /\
  length (_current_method (set_current_method sample_name sample))
  = cmname_buffer_length /\
  c_str sample_name = c_str [x72; x75; x6e] /\
  current_method (set_current_method sample_name sample)
  = current_method
      (set_current_method [x72; x75; x6e]
         (set_current_method sample_name sample)).
Proof.
  assert (H1 : length (_current_method sample) = cmname_buffer_length)
    by reflexivity.
  assert (H2 : length (_current_method (set_current_method sample_name sample))
               = cmname_buffer_length) by reflexivity.
  assert (E : c_str sample_name = c_str [x72; x75; x6e]) by reflexivity.
  split; [exact H1|]. split; [exact H2|]. split; [exact E|].
  exact (proj1 (set_current_method_depends_on_the_name_only
                  sample_name [x72; x75; x6e] sample
                  (set_current_method sample_name sample) H1 H2 E)).
Defined.

End CompilerCountersFacts.

(** ** More on the admission state *)

Module AdmissionFacts.

Import MachineInt MachineIntFacts CompileBroker CompileBrokerFacts.
Import AdmissionTrace.

Lemma set_should_compile_new_jobs_keeps_use_compiler n s :
  UseCompiler (snd (set_should_compile_new_jobs n s)) = UseCompiler s.
Proof.
  destruct (Z.eq_dec (_should_compile_new_jobs s) (to_jint (1 - n))) as [E|E].
  - unfold set_should_compile_new_jobs, Atomic.cmpxchg.
    rewrite E, Z.eqb_refl. cbv beta iota zeta. rewrite Z.eqb_refl.
    destruct (n =? run_compilation); reflexivity.
  - now rewrite (set_should_compile_new_jobs_miss n s E).
Qed.

Lemma step_keeps_compiler_off c s :
  UseCompiler s = false -> UseCompiler (snd (step c s)) = false.
Proof.
  intros H. destruct c as [n| |].
  - now rewrite step_set_snd, set_should_compile_new_jobs_keeps_use_compiler.
  - reflexivity.
  - cbn. unfold should_print_compiler_warning, Atomic.cmpxchg.
    destruct (_print_compilation_warning s =? 0); exact H.
Qed.

Lemma run_keeps_compiler_off cs : forall s,
  UseCompiler s = false -> UseCompiler (snd (run cs s)) = false.
Proof.
  induction cs as [|c cs IH]; intros s H; [exact H|].
  rewrite run_cons. cbn [snd]. apply IH. now apply step_keeps_compiler_off.
Qed.

(** X3.  After [disable_compilation_forever] no call of the admission
    interface, with whatever argument, makes [should_compile_new_jobs()]
    true again: [UseCompiler] stays off. *)
Theorem no_new_jobs_after_disable cs s :
  UseCompiler (snd (run cs (disable_compilation_forever s))) = false /\
  should_compile_new_jobs (snd (run cs (disable_compilation_forever s)))
  = false.
Proof.
  assert (U : UseCompiler (snd (run cs (disable_compilation_forever s)))
              = false) by (apply run_keeps_compiler_off; reflexivity).
  split; [exact U|].
  unfold should_compile_new_jobs. now rewrite U.
Qed.

(** X4.  Between values of [enum CompilerActivity] the only moves of
    [set_should_compile_new_jobs] are run -> stop and stop -> run: the call
    returns [true] exactly when the cell holds [run_compilation] and
    [stop_compilation] is asked for, or the other way round, and the cell
    then holds what was asked for; in every other case it returns [false]
    and the state is as before. *)
Theorem set_should_compile_new_jobs_toggles n s :
  is_activity (_should_compile_new_jobs s) ->
  is_activity n ->
  (fst (set_should_compile_new_jobs n s) = true <->
   (_should_compile_new_jobs s = run_compilation /\ n = stop_compilation) \/
   (_should_compile_new_jobs s = stop_compilation /\ n = run_compilation)) /\
  (fst (set_should_compile_new_jobs n s) = true ->
   _should_compile_new_jobs (snd (set_should_compile_new_jobs n s)) = n) /\
  (fst (set_should_compile_new_jobs n s) = false ->
   snd (set_should_compile_new_jobs n s) = s).
Proof.
  intros A N.
  destruct (set_should_compile_new_jobs_cases n s) as [[F E]|[T [C E]]].
  - repeat split.
    + rewrite F. discriminate.
    + intros H. exfalso.
      assert (M : _should_compile_new_jobs s <> to_jint (1 - n)).
      { intros C. destruct (set_should_compile_new_jobs_hit n s C).
        congruence. }
      apply M.
      destruct H as [[-> ->]|[-> ->]]; reflexivity.
    + rewrite F. discriminate.
    + intros _. exact E.
  - repeat split.
    + intros _. clear T E.
      set (cell := _should_compile_new_jobs s) in *. clearbody cell.
      destruct N as [ -> | [ -> | -> ] ]; vm_compute in C; subst cell;
        unfold is_activity, stop_compilation, run_compilation,
          shutdown_compilation in *; lia.
    + intros _. exact T.
    + intros _. exact E.
    + rewrite T. discriminate.
Qed.

Lemma set_should_compile_new_jobs_toggles_witness :
  is_activity (_should_compile_new_jobs sample_state) /\
  is_activity stop_compilation /\
  fst (set_should_compile_new_jobs stop_compilation sample_state) = true /\
  _should_compile_new_jobs
    (snd (set_should_compile_new_jobs stop_compilation sample_state))
  = stop_compilation /\
  fst (set_should_compile_new_jobs run_compilation sample_state) = false /\
  snd (set_should_compile_new_jobs run_compilation sample_state)
  = sample_state.
Proof.
  assert (A : is_activity (_should_compile_new_jobs sample_state))
    by (right; left; reflexivity).
  assert (N0 : is_activity stop_compilation) by (left; reflexivity).
  assert (N1 : is_activity run_compilation) by (right; left; reflexivity).
  pose proof (set_should_compile_new_jobs_toggles
                stop_compilation sample_state A N0) as [I0 [H0 _]].
  pose proof (set_should_compile_new_jobs_toggles
                run_compilation sample_state A N1) as [_ [_ M1]].
  assert (T : fst (set_should_compile_new_jobs stop_compilation sample_state)
              = true)
    by (apply (proj2 I0); left; split; reflexivity).
  assert (F : fst (set_should_compile_new_jobs run_compilation sample_state)
              = false) by reflexivity.
  split; [exact A|]. split; [exact N0|]. split; [exact T|].
  split; [exact (H0 T)|]. split; [exact F|].
  exact (M1 F).
Defined.

(** X5.  The compare-and-swap of [set_should_compile_new_jobs] pairs every
    [jint] [n] with [1 - n].  A call that won is undone by the call with
    the complementary argument: that call wins too and puts back what the
    cell held.  The argument is not restricted to [CompilerActivity], and
    the complement of [shutdown_compilation] is -1: on a state that
    [is_compilation_disabled_forever()] the call with -1 returns [true],
    leaves -1 in the cell and counts a stop, and
    [is_compilation_disabled_forever()] is [false] afterwards. *)
Theorem a_call_that_won_can_be_undone :
  (forall n s,
      is_jint n ->
      fst (set_should_compile_new_jobs n s) = true ->
      fst (set_should_compile_new_jobs (to_jint (1 - n))
             (snd (set_should_compile_new_jobs n s))) = true /\
      _should_compile_new_jobs
        (snd (set_should_compile_new_jobs (to_jint (1 - n))
                (snd (set_should_compile_new_jobs n s))))
      = _should_compile_new_jobs s) /\
  (forall s,
      is_compilation_disabled_forever s = true ->
      fst (set_should_compile_new_jobs (-1) s) = true /\
      _should_compile_new_jobs (snd (set_should_compile_new_jobs (-1) s))
      = -1 /\
      is_compilation_disabled_forever
        (snd (set_should_compile_new_jobs (-1) s)) = false /\
      _total_compiler_stopped_count (snd (set_should_compile_new_jobs (-1) s))
      = to_uint (_total_compiler_stopped_count s + 1)).
Proof.
  split.
  - intros n s J T.
    destruct (set_should_compile_new_jobs_cases n s) as [[F _]|[_ [C E]]];
      [congruence|].
    assert (B : to_jint (1 - to_jint (1 - n)) = n).
    { unfold is_jint in J. unfold to_jint, wrap_signed.
      change (2 ^ (32 - 1)) with 2147483648 in *.
      change (2 ^ 31) with 2147483648 in *.
      change (2 ^ 32) with 4294967296.
      Z.div_mod_to_equations. lia. }
    assert (H : _should_compile_new_jobs
                  (snd (set_should_compile_new_jobs n s))
                = to_jint (1 - to_jint (1 - n))) by (rewrite E, B; reflexivity).
    destruct (set_should_compile_new_jobs_hit _ _ H) as [T2 E2].
    split; [exact T2|]. now rewrite E2, C.
  - unfold is_compilation_disabled_forever. intros s H. apply Z.eqb_eq in H.
    assert (C : _should_compile_new_jobs s = to_jint (1 - -1))
      by (rewrite H; reflexivity).
    destruct (set_should_compile_new_jobs_hit (-1) s C) as [T E].
    split; [exact T|]. split; [exact E|]. split; [now rewrite E|].
    unfold set_should_compile_new_jobs, Atomic.cmpxchg.
    rewrite C, Z.eqb_refl. cbv beta iota zeta. rewrite Z.eqb_refl.
    reflexivity.
Qed.

Lemma a_call_that_won_can_be_undone_witness :
  is_jint stop_compilation /\
  fst (set_should_compile_new_jobs stop_compilation sample_state) = true /\
  _should_compile_new_jobs
    (snd (set_should_compile_new_jobs (to_jint (1 - stop_compilation))
            (snd (set_should_compile_new_jobs stop_compilation sample_state))))
  = run_compilation /\
  is_compilation_disabled_forever sample_shutdown = true /\
  fst (set_should_compile_new_jobs (-1) sample_shutdown) = true /\
  is_compilation_disabled_forever
    (snd (set_should_compile_new_jobs (-1) sample_shutdown)) = false.
Proof.
  assert (J : is_jint stop_compilation)
    by (unfold is_jint, stop_compilation; split; [discriminate|reflexivity]).
  assert (W : fst (set_should_compile_new_jobs stop_compilation sample_state)
              = true) by reflexivity.
  assert (H : is_compilation_disabled_forever sample_shutdown = true)
    by reflexivity.
  destruct a_call_that_won_can_be_undone as [Undo Escape].
  destruct (Undo stop_compilation sample_state J W) as [_ Back].
  destruct (Escape sample_shutdown H) as [T [_ [F _]]].
  split; [exact J|]. split; [exact W|]. split; [exact Back|].
  split; [exact H|]. split; [exact T | exact F].
Defined.

(** *** Counting the calls that won *)




Lemma should_print_compiler_warning_keeps s :
  _should_compile_new_jobs (snd (should_print_compiler_warning s))
  = _should_compile_new_jobs s /\
  _total_compiler_stopped_count (snd (should_print_compiler_warning s))
  = _total_compiler_stopped_count s /\
  _total_compiler_restarted_count (snd (should_print_compiler_warning s))
  = _total_compiler_restarted_count s.
Proof.
  unfold should_print_compiler_warning, Atomic.cmpxchg.
  destruct (_print_compilation_warning s =? 0); repeat split.
Qed.

Lemma step_warning_fst s :
  fst (step Call_should_print_compiler_warning s)
  = Ret_bool (fst (should_print_compiler_warning s)).
Proof. cbn. now destruct (should_print_compiler_warning s). Qed.

Lemma step_warning_snd s :
  snd (step Call_should_print_compiler_warning s)
  = snd (should_print_compiler_warning s).
Proof. cbn. now destruct (should_print_compiler_warning s). Qed.





(** *** Stops and restarts alternate *)

(** One call with an argument of the enumeration on a cell of the
    enumeration: run -> stop won, stop -> run won, or nothing happened. *)
Lemma enum_call n s :
  is_activity (_should_compile_new_jobs s) ->
  is_activity n ->
  (_should_compile_new_jobs s = run_compilation /\ n = stop_compilation /\
   fst (set_should_compile_new_jobs n s) = true /\
   _should_compile_new_jobs (snd (set_should_compile_new_jobs n s))
   = stop_compilation) \/
  (_should_compile_new_jobs s = stop_compilation /\ n = run_compilation /\
   fst (set_should_compile_new_jobs n s) = true /\
   _should_compile_new_jobs (snd (set_should_compile_new_jobs n s))
   = run_compilation) \/
  (fst (set_should_compile_new_jobs n s) = false /\
   snd (set_should_compile_new_jobs n s) = s).
Proof.
  intros A N.
  destruct (set_should_compile_new_jobs_cases n s) as [[F E]|[T [C E]]].
  - right. right. split; assumption.
  - set (s1 := snd (set_should_compile_new_jobs n s)) in *. clearbody s1.
    set (b := fst (set_should_compile_new_jobs n s)) in *. clearbody b.
    set (cell := _should_compile_new_jobs s) in *. clearbody cell.
    destruct N as [ -> | [ -> | -> ] ]; vm_compute in C; subst cell.
    + left. repeat split; assumption.
    + right. left. repeat split; assumption.
    + exfalso. unfold is_activity, stop_compilation, run_compilation,
        shutdown_compilation in A. lia.
Qed.

(** X7.  With arguments of the enumeration, stops and restarts alternate:
    in any run of calls from a state that is running, the calls that won a
    stop are as many as those that won a restart, or one more; from a
    stopped state the restarts are as many as the stops, or one more; from
    the shutdown state nobody wins.  The cell never leaves the
    enumeration. *)
Theorem stops_and_restarts_alternate cs s :
  is_activity (_should_compile_new_jobs s) ->
  Forall activity_call cs ->
  is_activity (_should_compile_new_jobs (snd (run cs s))) /\
  (_should_compile_new_jobs s = run_compilation ->
   (restarts_won cs (fst (run cs s)) <= stops_won cs (fst (run cs s))
    <= restarts_won cs (fst (run cs s)) + 1)%nat) /\
  (_should_compile_new_jobs s = stop_compilation ->
   (stops_won cs (fst (run cs s)) <= restarts_won cs (fst (run cs s))
    <= stops_won cs (fst (run cs s)) + 1)%nat) /\
  (_should_compile_new_jobs s = shutdown_compilation ->
   stops_won cs (fst (run cs s)) = O /\
   restarts_won cs (fst (run cs s)) = O).
Proof.
  revert s. induction cs as [|c cs IH]; intros s A F.
  - cbn. repeat split; auto.
  - inversion F as [|? ? Ac Fcs]; subst.
    rewrite run_cons. cbn [fst snd].
    destruct c as [n| |].
    + rewrite step_set_fst, step_set_snd. cbn [stops_won restarts_won].
      cbn in Ac.
      destruct (enum_call n s A Ac)
        as [[C [-> [-> C1]]]|[[C [-> [-> C1]]]|[-> ->]]].
      * assert (A1 : is_activity
                       (_should_compile_new_jobs
                          (snd (set_should_compile_new_jobs stop_compilation s))))
          by (rewrite C1; left; reflexivity).
        destruct (IH _ A1 Fcs) as [I [_ [S _]]]. specialize (S C1).
        change (true && negb (stop_compilation =? run_compilation))
          with true.
        change (true && (stop_compilation =? run_compilation)) with false.
        cbv iota. rewrite C.
        unfold stop_compilation, run_compilation, shutdown_compilation in *.
        repeat split; try exact I; intros; try lia.
      * assert (A1 : is_activity
                       (_should_compile_new_jobs
                          (snd (set_should_compile_new_jobs run_compilation s))))
          by (rewrite C1; right; left; reflexivity).
        destruct (IH _ A1 Fcs) as [I [R _]]. specialize (R C1).
        change (true && negb (run_compilation =? run_compilation))
          with false.
        change (true && (run_compilation =? run_compilation)) with true.
        cbv iota. rewrite C.
        unfold stop_compilation, run_compilation, shutdown_compilation in *.
        repeat split; try exact I; intros; try lia.
      * cbn [andb]. now apply IH.
    + cbn [step fst snd stops_won restarts_won].
      assert (A1 : is_activity
                     (_should_compile_new_jobs (disable_compilation_forever s)))
        by (right; right; reflexivity).
      destruct (IH _ A1 Fcs) as [I [_ [_ D]]].
      destruct (D eq_refl) as [-> ->].
      repeat split; try exact I; intros; lia.
    + rewrite step_warning_fst, step_warning_snd.
      cbn [stops_won restarts_won].
      destruct (should_print_compiler_warning_keeps s) as [K _].
      rewrite <- K in A |- *. now apply IH.
Qed.

Lemma stops_and_restarts_alternate_witness :
  is_activity (_should_compile_new_jobs sample_state) /\
  Forall activity_call sample_calls /\
  _should_compile_new_jobs sample_state = run_compilation /\
  (restarts_won sample_calls (fst (run sample_calls sample_state))
   <= stops_won sample_calls (fst (run sample_calls sample_state))
   <= restarts_won sample_calls (fst (run sample_calls sample_state)) + 1)%nat
  /\
  is_activity (_should_compile_new_jobs (snd (run sample_calls sample_state))).
Proof.
  assert (A : is_activity (_should_compile_new_jobs sample_state))
    by (right; left; reflexivity).
  assert (F : Forall activity_call sample_calls)
    by (repeat constructor; unfold is_activity; auto).
  assert (R : _should_compile_new_jobs sample_state = run_compilation)
    by reflexivity.
  destruct (stops_and_restarts_alternate sample_calls sample_state A F)
    as [I [B _]].
  split; [exact A|]. split; [exact F|]. split; [exact R|].
  split; [exact (B R) | exact I].
Defined.

End AdmissionFacts.

(** ** More on the tagged root-scan link *)

Module MarkLinkCodec.

Import MachineInt nmethod MarkLinkFacts.

Section PointerWidth.
Variable ptr_bits : Z.
Hypothesis ptr_bits_ge_2 : 2 <= ptr_bits.

(** The link of any pointer-sized address and a tag below 4, aligned or
    not: the address without its two low bits, plus the tag. *)
Lemma mark_link_any nm tag :
  0 <= nm < 2 ^ ptr_bits -> 0 <= tag < 4 ->
  mark_link ptr_bits nm tag = 4 * (nm / 4) + tag.
Proof.
  intros R T. unfold mark_link.
  pose proof (four_le_pow ptr_bits ptr_bits_ge_2) as P.
  rewrite (to_uintptr_small ptr_bits nm R), (to_uintptr_small ptr_bits tag)
    by lia.
  rewrite (land_mask ptr_bits ptr_bits_ge_2 nm R).
  now apply lor_tag.
Qed.

Lemma extract_nmethod_value link :
  0 <= link < 2 ^ ptr_bits ->
  extract_nmethod ptr_bits link = 4 * (link / 4).
Proof.
  intros R. unfold extract_nmethod.
  rewrite (to_uintptr_small ptr_bits link R).
  now apply land_mask.
Qed.

Lemma extract_state_value link :
  0 <= link < 2 ^ ptr_bits -> extract_state ptr_bits link = link mod 4.
Proof.
  intros R. rewrite extract_state_mod.
  now rewrite (to_uintptr_small ptr_bits link R).
Qed.

End PointerWidth.

(** X8.  Taking a link apart and putting it together again gives the
    link back.  For every pointer-sized link value, [extract_nmethod] is a
    pointer-sized address aligned to 4, [extract_state] is one of the four
    tags, so the pair passes the assertions of [mark_link], and
    [mark_link] of the pair is the link. *)
Theorem mark_link_of_extracted_parts (ptr_bits link : Z) :
  2 <= ptr_bits ->
  0 <= link < 2 ^ ptr_bits ->
  0 <= extract_nmethod ptr_bits link < 2 ^ ptr_bits /\
  0 <= extract_state ptr_bits link <= claim_strong_done_tag /\
  mark_link_assert (extract_nmethod ptr_bits link)
    (extract_state ptr_bits link) = true /\
  mark_link ptr_bits (extract_nmethod ptr_bits link)
    (extract_state ptr_bits link) = link.
Proof.
  intros W R.
  rewrite (extract_nmethod_value ptr_bits W link R).
  rewrite (extract_state_value ptr_bits link R).
  pose proof (Z.mod_pos_bound link 4 ltac:(lia)) as M.
  pose proof (Z.div_mod link 4 ltac:(lia)) as D.
  assert (N : 0 <= 4 * (link / 4) < 2 ^ ptr_bits) by lia.
  assert (A : is_aligned (4 * (link / 4)) 4 = true).
  { unfold is_aligned. apply Z.eqb_eq.
    rewrite Z.mul_comm. apply Z.mod_mul. lia. }
  unfold mark_link_assert, claim_strong_done_tag.
  split; [exact N|]. split; [lia|]. split.
  - rewrite A. apply andb_true_iff. split; [apply Z.leb_le; lia|reflexivity].
  - rewrite (mark_link_value ptr_bits W _ _ N A) by lia. lia.
Qed.

Lemma mark_link_of_extracted_parts_witness :
  2 <= 64 /\ 0 <= 4099 < 2 ^ 64 /\
  extract_nmethod 64 4099 = 4096 /\
  extract_state 64 4099 = 3 /\
  mark_link 64 (extract_nmethod 64 4099) (extract_state 64 4099) = 4099.
Proof.
  assert (W : 2 <= 64) by lia.
  assert (R : 0 <= 4099 < 2 ^ 64) by (split; [lia | reflexivity]).
  split; [exact W|]. split; [exact R|].
  split; [reflexivity|]. split; [reflexivity|].
  exact (proj2 (proj2 (proj2 (mark_link_of_extracted_parts 64 4099 W R)))).
Defined.

(** X9.  With its assertions compiled out [mark_link] accepts a pointer
    that is not aligned to 4: the two low bits of the pointer are lost and
    the tag is kept, so [extract_state] still gives the tag while
    [extract_nmethod] gives the pointer rounded down to a multiple of 4,
    which is the pointer itself only if it was aligned. *)
Theorem mark_link_drops_low_pointer_bits (ptr_bits nm tag : Z) :
  2 <= ptr_bits ->
  0 <= nm < 2 ^ ptr_bits ->
  0 <= tag <= claim_strong_done_tag ->
  extract_state ptr_bits (mark_link ptr_bits nm tag) = tag /\
  extract_nmethod ptr_bits (mark_link ptr_bits nm tag) = nm - nm mod 4 /\
  (extract_nmethod ptr_bits (mark_link ptr_bits nm tag) = nm <->
   is_aligned nm 4 = true).
Proof.
  unfold claim_strong_done_tag. intros W R T.
  assert (T4 : 0 <= tag < 4) by lia.
  pose proof (mark_link_any ptr_bits W nm tag R T4) as V.
  pose proof (Z.mod_pos_bound nm 4 ltac:(lia)) as M.
  pose proof (Z.div_mod nm 4 ltac:(lia)) as D.
  assert (L : 0 <= mark_link ptr_bits nm tag < 2 ^ ptr_bits).
  { rewrite V.
    assert (P : 2 ^ ptr_bits = 4 * 2 ^ (ptr_bits - 2)).
    { change 4 with (2 ^ 2). rewrite <- Z.pow_add_r by lia. f_equal. lia. }
    lia. }
  rewrite (extract_state_value ptr_bits _ L).
  rewrite (extract_nmethod_value ptr_bits W _ L), V.
  assert (Q : (4 * (nm / 4) + tag) / 4 = nm / 4)
    by (clear V L D; Z.div_mod_to_equations; lia).
  assert (S : (4 * (nm / 4) + tag) mod 4 = tag)
    by (clear V L D; Z.div_mod_to_equations; lia).
  rewrite Q, S. split; [reflexivity|]. split; [lia|].
  unfold is_aligned. rewrite Z.eqb_eq. lia.
Qed.

Lemma mark_link_drops_low_pointer_bits_witness :
  2 <= 64 /\ 0 <= 4098 < 2 ^ 64 /\
  0 <= claim_weak_done_tag <= claim_strong_done_tag /\
  extract_state 64 (mark_link 64 4098 claim_weak_done_tag)
  = claim_weak_done_tag /\
  extract_nmethod 64 (mark_link 64 4098 claim_weak_done_tag) = 4096.
Proof.
  assert (W : 2 <= 64) by lia.
  assert (R : 0 <= 4098 < 2 ^ 64) by (split; [lia | reflexivity]).
  assert (T : 0 <= claim_weak_done_tag <= claim_strong_done_tag)
    by (unfold claim_weak_done_tag, claim_strong_done_tag; lia).
  destruct (mark_link_drops_low_pointer_bits 64 4098 claim_weak_done_tag W R T)
    as [S [N _]].
  split; [exact W|]. split; [exact R|]. split; [exact T|].
  split; [exact S | exact N].
Defined.

(** X10.  Links do not collide.  For pointer-sized addresses aligned to 4
    and tags of the enumeration, two links are equal only if both the
    address and the tag are equal; the link of an nmethod claimed for weak
    processing is the address itself; and the link made for a non-null
    address is never [nullptr], the value that stands for an unclaimed
    nmethod, although [extract_state] of [nullptr] is
    [claim_weak_request_tag]. *)
Theorem mark_link_is_injective (ptr_bits nm1 tag1 nm2 tag2 : Z) :
  2 <= ptr_bits ->
  0 <= nm1 < 2 ^ ptr_bits -> is_aligned nm1 4 = true ->
  0 <= nm2 < 2 ^ ptr_bits -> is_aligned nm2 4 = true ->
  0 <= tag1 <= claim_strong_done_tag ->
  0 <= tag2 <= claim_strong_done_tag ->
  (mark_link ptr_bits nm1 tag1 = mark_link ptr_bits nm2 tag2 ->
   nm1 = nm2 /\ tag1 = tag2) /\
  mark_link ptr_bits nm1 claim_weak_request_tag = nm1 /\
  (nm1 <> 0 -> mark_link ptr_bits nm1 tag1 <> 0) /\
  extract_state ptr_bits 0 = claim_weak_request_tag.
Proof.
  unfold claim_strong_done_tag, claim_weak_request_tag.
  intros W R1 A1 R2 A2 T1 T2.
  rewrite !(mark_link_value ptr_bits W) by (assumption || lia).
  pose proof (aligned_4 nm1 A1) as E1.
  pose proof (aligned_4 nm2 A2) as E2.
  split; [|split; [|split]].
  - intros E. lia.
  - lia.
  - intros N. lia.
  - rewrite extract_state_mod. unfold to_uintptr, wrap_unsigned.
    rewrite Z.mod_0_l by (pose proof (four_le_pow ptr_bits W); lia).
    reflexivity.
Qed.

Lemma mark_link_is_injective_witness :
  2 <= 64 /\ 0 <= 4096 < 2 ^ 64 /\ is_aligned 4096 4 = true /\
  0 <= 8192 < 2 ^ 64 /\ is_aligned 8192 4 = true /\
  0 <= claim_strong_done_tag <= claim_strong_done_tag /\
  0 <= claim_weak_done_tag <= claim_strong_done_tag /\
  4096 <> 0 /\
  mark_link 64 4096 claim_weak_request_tag = 4096 /\
  mark_link 64 4096 claim_strong_done_tag <> 0.
Proof.
  assert (W : 2 <= 64) by lia.
  assert (R1 : 0 <= 4096 < 2 ^ 64) by (split; [lia | reflexivity]).
  assert (R2 : 0 <= 8192 < 2 ^ 64) by (split; [lia | reflexivity]).
  assert (A1 : is_aligned 4096 4 = true) by reflexivity.
  assert (A2 : is_aligned 8192 4 = true) by reflexivity.
  assert (T1 : 0 <= claim_strong_done_tag <= claim_strong_done_tag)
    by (unfold claim_strong_done_tag; lia).
  assert (T2 : 0 <= claim_weak_done_tag <= claim_strong_done_tag)
    by (unfold claim_weak_done_tag, claim_strong_done_tag; lia).
  assert (N : 4096 <> 0) by lia.
  destruct (mark_link_is_injective 64 4096 claim_strong_done_tag
              8192 claim_weak_done_tag W R1 A1 R2 A2 T1 T2)
    as [_ [S [Z0 _]]].
  repeat (split; [assumption|]).
  exact (Z0 N).
Defined.

End MarkLinkCodec.

(** ** Slots of the embedded tables *)

Module TableLayout.

Import MachineInt MachineIntFacts nmethod TableFacts.

(** Arithmetic of a table of [size] bytes at [start] cut into slots of
    [slot] bytes, slot [i] (counted from 1) starting at
    [start + (i - 1) * slot]. *)
Lemma slot_of_address start size slot addr :
  1 < slot -> 0 <= size -> slot * Z.quot size slot = size ->
  start <= addr < start + size ->
  0 < (addr - start) / slot + 1 < Z.quot size slot + 1 /\
  start + ((addr - start) / slot + 1 - 1) * slot <= addr
  < start + ((addr - start) / slot + 1 - 1) * slot + slot /\
  (forall j,
      start + (j - 1) * slot <= addr < start + (j - 1) * slot + slot ->
      j = (addr - start) / slot + 1).
Proof.
  intros S P E R.
  pose proof (Z.div_mod (addr - start) slot ltac:(lia)) as D.
  pose proof (Z.mod_pos_bound (addr - start) slot ltac:(lia)) as M.
  assert (Q0 : 0 <= (addr - start) / slot) by (apply Z.div_pos; lia).
  assert (Q1 : (addr - start) / slot < Z.quot size slot).
  { apply Z.div_lt_upper_bound; [lia|]. lia. }
  split; [lia|]. split; [lia|].
  intros j J.
  assert (j - 1 = (addr - start) / slot); [|lia].
  apply Z.div_unique with (r := addr - start - (j - 1) * slot); lia.
Qed.

Lemma oops_count_slots oopSize nm :
  1 < oopSize ->
  0 <= oops_end nm - oops_begin nm < 2 ^ 31 ->
  oops_count_assert oopSize nm = true ->
  oops_count oopSize nm
  = Z.quot (oops_end nm - oops_begin nm) oopSize + 1 /\
  oopSize * Z.quot (oops_end nm - oops_begin nm) oopSize
  = oops_end nm - oops_begin nm /\
  0 <= Z.quot (oops_end nm - oops_begin nm) oopSize < 2 ^ 30.
Proof.
  intros S R A.
  assert (J : is_jint (oops_end nm - oops_begin nm))
    by (unfold is_jint; change (2 ^ 31) with 2147483648 in *; lia).
  unfold oops_count_assert, oops_count, oops_size in *.
  rewrite (to_int_small _ J) in *.
  apply Z.eqb_eq in A.
  pose proof (exact_slots oopSize _ (proj1 R) A) as E.
  pose proof (count_no_wrap oopSize S _ (proj1 R) J) as C.
  rewrite (to_int_small _ C).
  assert (Q : 0 <= Z.quot (oops_end nm - oops_begin nm) oopSize)
    by (apply Z.quot_pos; lia).
  change (2 ^ 31) with (2 * 2 ^ 30) in R.
  split; [reflexivity|]. split; [exact E|]. nia.
Qed.

Lemma metadata_count_slots wordSize nm :
  1 < wordSize ->
  0 <= metadata_end nm - metadata_begin nm < 2 ^ 31 ->
  metadata_count_assert wordSize nm = true ->
  metadata_count wordSize nm
  = Z.quot (metadata_end nm - metadata_begin nm) wordSize + 1 /\
  wordSize * Z.quot (metadata_end nm - metadata_begin nm) wordSize
  = metadata_end nm - metadata_begin nm /\
  0 <= Z.quot (metadata_end nm - metadata_begin nm) wordSize < 2 ^ 30.
Proof.
  intros S R A.
  assert (J : is_jint (metadata_end nm - metadata_begin nm))
    by (unfold is_jint; change (2 ^ 31) with 2147483648 in *; lia).
  unfold metadata_count_assert, metadata_count, metadata_size in *.
  rewrite (to_int_small _ J) in *.
  apply Z.eqb_eq in A.
  pose proof (exact_slots wordSize _ (proj1 R) A) as E.
  pose proof (count_no_wrap wordSize S _ (proj1 R) J) as C.
  rewrite (to_int_small _ C).
  assert (Q : 0 <= Z.quot (metadata_end nm - metadata_begin nm) wordSize)
    by (apply Z.quot_pos; lia).
  change (2 ^ 31) with (2 * 2 ^ 30) in R.
  split; [reflexivity|]. split; [exact E|]. nia.
Qed.

Lemma oop_addr_at_value oopSize nm index :
  0 < index <= 2 ^ 30 ->
  oop_addr_at oopSize nm index = oops_begin nm + (index - 1) * oopSize.
Proof.
  intros I. unfold oop_addr_at. rewrite to_int_small; [reflexivity|].
  unfold is_jint. change (2 ^ 30) with 1073741824 in I.
  change (2 ^ 31) with 2147483648. lia.
Qed.

Lemma metadata_addr_at_value wordSize nm index :
  0 < index <= 2 ^ 30 ->
  metadata_addr_at wordSize nm index
  = metadata_begin nm + (index - 1) * wordSize.
Proof.
  intros I. unfold metadata_addr_at. rewrite to_int_small; [reflexivity|].
  unfold is_jint. change (2 ^ 30) with 1073741824 in I.
  change (2 ^ 31) with 2147483648. lia.
Qed.

(** X11.  The oop table and the metadata table are neighbours: the oop
    table ends where the metadata table begins, no address is in both, and
    when neither table has a negative size an address is in one of them
    exactly when it lies between [oops_begin()] and [metadata_end()]. *)
Theorem oops_and_metadata_are_adjacent nm addr :
  oops_end nm = metadata_begin nm /\
  oops_contains nm addr && metadata_contains nm addr = false /\
  (oops_begin nm <= oops_end nm ->
   metadata_begin nm <= metadata_end nm ->
   oops_contains nm addr || metadata_contains nm addr
   = (oops_begin nm <=? addr) && (addr <? metadata_end nm)).
Proof.
  unfold oops_contains, metadata_contains, oops_end, metadata_begin.
  split; [reflexivity|]. split.
  - destruct (oops_begin nm <=? addr);
      destruct (addr <? header_begin nm + _metadata_offset nm) eqn:L;
      destruct (header_begin nm + _metadata_offset nm <=? addr) eqn:G;
      destruct (addr <? metadata_end nm); try reflexivity.
    all: apply Z.ltb_lt in L; apply Z.leb_le in G; lia.
  - intros O M.
    destruct (oops_begin nm <=? addr) eqn:B;
      destruct (addr <? header_begin nm + _metadata_offset nm) eqn:L;
      destruct (header_begin nm + _metadata_offset nm <=? addr) eqn:G;
      destruct (addr <? metadata_end nm) eqn:E; try reflexivity.
    all: rewrite ?Z.leb_le, ?Z.ltb_lt, ?Z.leb_gt, ?Z.ltb_ge in *; lia.
Qed.

Lemma oops_and_metadata_are_adjacent_witness :
  oops_begin sample <= oops_end sample /\
  metadata_begin sample <= metadata_end sample /\
  oops_contains sample 4176 || metadata_contains sample 4176 = true /\
  oops_contains sample 4176 && metadata_contains sample 4176 = false.
Proof.
  assert (O : oops_begin sample <= oops_end sample) by (vm_compute; discriminate).
  assert (M : metadata_begin sample <= metadata_end sample)
    by (vm_compute; discriminate).
  destruct (oops_and_metadata_are_adjacent sample 4176) as [_ [D U]].
  split; [exact O|]. split; [exact M|].
  split; [exact (U O M) | exact D].
Defined.

(** X12.  The slots of the oop table tile it.  For a table whose size is a
    multiple of [oopSize] and fits an [int]: [oop_addr_at(1)] is
    [oops_begin()]; consecutive indexes below [oops_count()] address
    consecutive slots, [oopSize] bytes apart; the slot of the last index
    below [oops_count()] ends at [oops_end()]; and [oops_count()] is 1
    exactly when the table is empty. *)
Theorem oop_slots_tile_the_table oopSize nm :
  1 < oopSize ->
  0 <= oops_end nm - oops_begin nm < 2 ^ 31 ->
  oops_count_assert oopSize nm = true ->
  oop_addr_at oopSize nm 1 = oops_begin nm /\
  (forall index,
      0 < index -> index + 1 < oops_count oopSize nm ->
      oop_addr_at oopSize nm (index + 1)
      = oop_addr_at oopSize nm index + oopSize) /\
  (1 < oops_count oopSize nm ->
   oop_addr_at oopSize nm (oops_count oopSize nm - 1) + oopSize
   = oops_end nm) /\
  (oops_count oopSize nm = 1 <-> oops_begin nm = oops_end nm).
Proof.
  intros S R A.
  destruct (oops_count_slots oopSize nm S R A) as [C [E Q]].
  rewrite C. split; [|split; [|split]].
  - rewrite oop_addr_at_value by (change (2 ^ 30) with 1073741824; lia). lia.
  - intros index P L. rewrite !oop_addr_at_value by lia. lia.
  - intros L. rewrite oop_addr_at_value by lia. lia.
  - split; intros H; nia.
Qed.

Lemma oop_slots_tile_the_table_witness :
  1 < sample_oopSize /\
  0 <= oops_end sample - oops_begin sample < 2 ^ 31 /\
  oops_count_assert sample_oopSize sample = true /\
  0 < 1 /\ 1 + 1 < oops_count sample_oopSize sample /\
  oop_addr_at sample_oopSize sample (1 + 1)
  = oop_addr_at sample_oopSize sample 1 + sample_oopSize /\
  1 < oops_count sample_oopSize sample /\
  oop_addr_at sample_oopSize sample (oops_count sample_oopSize sample - 1)
  + sample_oopSize = oops_end sample.
Proof.
  assert (S : 1 < sample_oopSize) by reflexivity.
  assert (R : 0 <= oops_end sample - oops_begin sample < 2 ^ 31)
    by (split; [vm_compute; discriminate | reflexivity]).
  assert (A : oops_count_assert sample_oopSize sample = true) by reflexivity.
  assert (P : 0 < 1) by lia.
  assert (L : 1 + 1 < oops_count sample_oopSize sample) by reflexivity.
  assert (C : 1 < oops_count sample_oopSize sample) by reflexivity.
  destruct (oop_slots_tile_the_table sample_oopSize sample S R A)
    as [_ [N [E _]]].
  repeat (split; [assumption|]).
  split; [exact (N 1 P L)|]. split; [exact C | exact (E C)].
Defined.

(** X13.  Every address inside the oop table lies in the slot of exactly
    one valid index.  For a table whose size is a multiple of [oopSize] and
    fits an [int], an address that [oops_contains] accepts lies in the
    [oopSize] bytes from [oop_addr_at(index)] on for an index with
    [0 < index < oops_count()], and for no other index. *)
Theorem every_oop_address_has_one_index oopSize nm addr :
  1 < oopSize ->
  0 <= oops_end nm - oops_begin nm < 2 ^ 31 ->
  oops_count_assert oopSize nm = true ->
  oops_contains nm addr = true ->
  exists index,
    0 < index < oops_count oopSize nm /\
    oop_addr_at oopSize nm index <= addr
    < oop_addr_at oopSize nm index + oopSize /\
    (forall other,
        0 < other < oops_count oopSize nm ->
        oop_addr_at oopSize nm other <= addr
        < oop_addr_at oopSize nm other + oopSize ->
        other = index).
Proof.
  intros S R A K.
  destruct (oops_count_slots oopSize nm S R A) as [C [E Q]].
  unfold oops_contains in K. apply andb_true_iff in K.
  destruct K as [K1 K2]. apply Z.leb_le in K1. apply Z.ltb_lt in K2.
  destruct (slot_of_address (oops_begin nm) (oops_end nm - oops_begin nm)
              oopSize addr S (proj1 R) E ltac:(lia)) as [I [In U]].
  exists ((addr - oops_begin nm) / oopSize + 1).
  rewrite C. split; [exact I|].
  rewrite oop_addr_at_value by lia. split; [exact In|].
  intros other O Ho. rewrite oop_addr_at_value in Ho by lia.
  now apply U.
Qed.

Lemma every_oop_address_has_one_index_witness :
  1 < sample_oopSize /\
  0 <= oops_end sample - oops_begin sample < 2 ^ 31 /\
  oops_count_assert sample_oopSize sample = true /\
  oops_contains sample 4171 = true /\
  exists index,
    0 < index < oops_count sample_oopSize sample /\
    oop_addr_at sample_oopSize sample index <= 4171
    < oop_addr_at sample_oopSize sample index + sample_oopSize.
Proof.
  assert (S : 1 < sample_oopSize) by reflexivity.
  assert (R : 0 <= oops_end sample - oops_begin sample < 2 ^ 31)
    by (split; [vm_compute; discriminate | reflexivity]).
  assert (A : oops_count_assert sample_oopSize sample = true) by reflexivity.
  assert (K : oops_contains sample 4171 = true) by reflexivity.
  repeat (split; [assumption|]).
  destruct (every_oop_address_has_one_index sample_oopSize sample 4171 S R A K)
    as [index [I [In _]]].
  exists index. split; assumption.
Defined.

(** X14.  The metadata table is laid out the same way.  For a table whose
    size is a multiple of [wordSize] and fits an [int]:
    [metadata_addr_at(1)] is [metadata_begin()], consecutive indexes below
    [metadata_count()] address slots [wordSize] bytes apart, the slot of
    the last index below [metadata_count()] ends at [metadata_end()], and
    an address that [metadata_contains] accepts lies in the slot of an
    index with [0 < index < metadata_count()] and of no other. *)
Theorem metadata_slots_tile_the_table wordSize nm :
  1 < wordSize ->
  0 <= metadata_end nm - metadata_begin nm < 2 ^ 31 ->
  metadata_count_assert wordSize nm = true ->
  metadata_addr_at wordSize nm 1 = metadata_begin nm /\
  (forall index,
      0 < index -> index + 1 < metadata_count wordSize nm ->
      metadata_addr_at wordSize nm (index + 1)
      = metadata_addr_at wordSize nm index + wordSize) /\
  (1 < metadata_count wordSize nm ->
   metadata_addr_at wordSize nm (metadata_count wordSize nm - 1) + wordSize
   = metadata_end nm) /\
  (forall addr,
      metadata_contains nm addr = true ->
      exists index,
        0 < index < metadata_count wordSize nm /\
        metadata_addr_at wordSize nm index <= addr
        < metadata_addr_at wordSize nm index + wordSize /\
        (forall other,
            0 < other < metadata_count wordSize nm ->
            metadata_addr_at wordSize nm other <= addr
            < metadata_addr_at wordSize nm other + wordSize ->
            other = index)).
Proof.
  intros S R A.
  destruct (metadata_count_slots wordSize nm S R A) as [C [E Q]].
  rewrite C. split; [|split; [|split]].
  - rewrite metadata_addr_at_value
      by (change (2 ^ 30) with 1073741824; lia). lia.
  - intros index P L. rewrite !metadata_addr_at_value by lia. lia.
  - intros L. rewrite metadata_addr_at_value by lia. lia.
  - intros addr K.
    unfold metadata_contains in K. apply andb_true_iff in K.
    destruct K as [K1 K2]. apply Z.leb_le in K1. apply Z.ltb_lt in K2.
    destruct (slot_of_address (metadata_begin nm)
                (metadata_end nm - metadata_begin nm)
                wordSize addr S (proj1 R) E ltac:(lia)) as [I [In U]].
    exists ((addr - metadata_begin nm) / wordSize + 1).
    split; [exact I|].
    rewrite metadata_addr_at_value by lia. split; [exact In|].
    intros other O Ho. rewrite metadata_addr_at_value in Ho by lia.
    now apply U.
Qed.

Lemma metadata_slots_tile_the_table_witness :
  1 < sample_wordSize /\
  0 <= metadata_end sample - metadata_begin sample < 2 ^ 31 /\
  metadata_count_assert sample_wordSize sample = true /\
  1 < metadata_count sample_wordSize sample /\
  metadata_addr_at sample_wordSize sample
    (metadata_count sample_wordSize sample - 1) + sample_wordSize
  = metadata_end sample /\
  metadata_contains sample 4190 = true /\
  exists index,
    0 < index < metadata_count sample_wordSize sample /\
    metadata_addr_at sample_wordSize sample index <= 4190
    < metadata_addr_at sample_wordSize sample index + sample_wordSize.
Proof.
  assert (S : 1 < sample_wordSize) by reflexivity.
  assert (R : 0 <= metadata_end sample - metadata_begin sample < 2 ^ 31)
    by (split; [vm_compute; discriminate | reflexivity]).
  assert (A : metadata_count_assert sample_wordSize sample = true)
    by reflexivity.
  assert (C : 1 < metadata_count sample_wordSize sample) by reflexivity.
  assert (K : metadata_contains sample 4190 = true) by reflexivity.
  destruct (metadata_slots_tile_the_table sample_wordSize sample S R A)
    as [_ [_ [E U]]].
  split; [exact S|]. split; [exact R|]. split; [exact A|].
  split; [exact C|]. split; [exact (E C)|]. split; [exact K|].
  destruct (U 4190 K) as [index [I [In _]]].
  exists index. split; assumption.
Defined.

End TableLayout.

(** ** The other once-only flags of an nmethod *)

Module FlagFacts.

Import nmethod LifeCycleFacts.

Lemma try_transition_flags new_state nm :
  _has_flushed_dependencies (snd (try_transition new_state nm))
  = _has_flushed_dependencies nm /\
  _load_reported (snd (try_transition new_state nm)) = _load_reported nm.
Proof.
  destruct (try_transition_cases new_state nm) as [[_ [_ ->]]|[_ [_ ->]]];
    [destruct nm|]; split; reflexivity.
Qed.

Lemma apply_flags o nm :
  (has_flushed_dependencies nm = true ->
   has_flushed_dependencies (apply o nm) = true) /\
  (load_reported nm = true -> load_reported (apply o nm) = true).
Proof.
  unfold has_flushed_dependencies, load_reported.
  destruct o; cbn [apply];
    unfold make_in_use, make_not_used, make_not_entrant;
    try match goal with
        | |- context [try_transition ?s nm] =>
            destruct (try_transition_flags s nm) as [-> ->];
            split; intros H; exact H
        end;
    destruct nm; cbn; split; auto.
Qed.

(** X15.  [has_flushed_dependencies()] and [load_reported()] are set and
    never cleared: once true they stay true through every run of
    operations on the nmethod.  [set_has_flushed_dependencies] asserts that
    it happens once, so with assertions compiled in a second call stops
    there; [set_load_reported] asserts nothing and may be repeated. *)
Theorem flushed_and_reported_are_never_cleared os nm :
  (has_flushed_dependencies nm = true ->
   has_flushed_dependencies (run os nm) = true) /\
  (load_reported nm = true -> load_reported (run os nm) = true) /\
  has_flushed_dependencies (set_has_flushed_dependencies nm) = true /\
  load_reported (set_load_reported nm) = true /\
  (has_flushed_dependencies nm = true ->
   run_debug (Op_set_has_flushed_dependencies :: os) nm = None) /\
  run_debug [Op_set_load_reported; Op_set_load_reported] nm
  = Some (set_load_reported nm).
Proof.
  split; [|split; [|split; [|split; [|split]]]].
  - revert nm. induction os as [|o os IH]; intros nm H; [exact H|].
    cbn [run]. apply IH. now apply (proj1 (apply_flags o nm)).
  - revert nm. induction os as [|o os IH]; intros nm H; [exact H|].
    cbn [run]. apply IH. now apply (proj2 (apply_flags o nm)).
  - reflexivity.
  - reflexivity.
  - intros H. cbn. unfold set_has_flushed_dependencies_assert. now rewrite H.
  - destruct nm. reflexivity.
Qed.

Lemma flushed_and_reported_are_never_cleared_witness :
  has_flushed_dependencies (set_has_flushed_dependencies sample) = true /\
  has_flushed_dependencies
    (run [Op_make_in_use; Op_set_is_unlinked; Op_set_load_reported]
       (set_has_flushed_dependencies sample)) = true /\
  load_reported (set_load_reported sample) = true /\
  load_reported
    (run [Op_make_in_use; Op_set_has_flushed_dependencies]
       (set_load_reported sample)) = true /\
  run_debug [Op_set_has_flushed_dependencies; Op_make_in_use]
    (set_has_flushed_dependencies sample) = None.
Proof.
  assert (F : has_flushed_dependencies (set_has_flushed_dependencies sample)
              = true) by reflexivity.
  assert (L : load_reported (set_load_reported sample) = true)
    by reflexivity.
  split; [exact F|].
  split; [exact (proj1 (flushed_and_reported_are_never_cleared
                          [Op_make_in_use; Op_set_is_unlinked;
                           Op_set_load_reported]
                          (set_has_flushed_dependencies sample)) F)|].
  split; [exact L|].
  split; [exact (proj1 (proj2 (flushed_and_reported_are_never_cleared
                                 [Op_make_in_use;
                                  Op_set_has_flushed_dependencies]
                                 (set_load_reported sample))) L)|].
  exact (proj1 (proj2 (proj2 (proj2 (proj2
           (flushed_and_reported_are_never_cleared [Op_make_in_use]
              (set_has_flushed_dependencies sample)))))) F).
Defined.

End FlagFacts.

(** ** The list of classes to preload *)

Module RecorderFacts.

Import ClassPreloader RecorderSpec.

Lemma seen_see ik r x :
  seen (fst (see ik r)) x = (x =? ik) || seen r x.
Proof.
  unfold see. destruct (seen r ik) eqn:S; cbn [fst].
  - destruct (Z.eqb_spec x ik) as [->|N]; [now rewrite S | reflexivity].
  - unfold seen. cbn [_seen_klasses existsb]. reflexivity.
Qed.

Lemma see_fields ik r :
  _loader_type (fst (see ik r)) = _loader_type r /\
  _list (fst (see ik r)) = _list r /\
  snd (see ik r) = negb (seen r ik).
Proof. unfold see. destruct (seen r ik); repeat split. Qed.

Lemma add_initiated_klass_keeps w ik s g :
  _record_javabase_only (add_initiated_klass w ik s g)
  = _record_javabase_only g /\
  _preloaded_classes (add_initiated_klass w ik s g) = _preloaded_classes g /\
  _static_preloaded_klasses (add_initiated_klass w ik s g)
  = _static_preloaded_klasses g /\
  _dynamic_preloaded_klasses (add_initiated_klass w ik s g)
  = _dynamic_preloaded_klasses g.
Proof.
  unfold add_initiated_klass.
  destruct (_ =? _); [repeat split|].
  destruct (is_platform_class_loader_of w ik); repeat split.
Qed.

(** The three ways through [maybe_record]. *)
Lemma maybe_record_seen w fuel ik r g :
  seen r ik = true ->
  maybe_record w (S fuel) ik (r, g) = Some (r, g).
Proof.
  intros S. cbn [maybe_record]. unfold see. rewrite S. reflexivity.
Qed.

Lemma maybe_record_turned_away w fuel ik r g :
  seen r ik = false ->
  eligible w (_loader_type r) (_record_javabase_only g) ik = false ->
  maybe_record w (S fuel) ik (r, g) = Some (fst (see ik r), g).
Proof.
  intros S E. cbn [maybe_record]. unfold see. rewrite S.
  cbn [negb fst]. unfold loader_type_matches. cbn [_loader_type].
  unfold eligible in E.
  destruct (shared_class_loader_type w (get_buffered_addr w ik)
            =? _loader_type r); cbn [negb andb] in *; [|reflexivity].
  destruct (is_hidden w ik && negb (is_dumping_invokedynamic w));
    cbn [negb andb] in *; [reflexivity|].
  destruct (is_vm_class w ik); cbn [negb andb] in *; [reflexivity|].
  destruct ((_loader_type r =? BOOT_LOADER w)
            && negb (Bool.eqb (_record_javabase_only g)
                       (is_in_javabase w ik)));
    cbn [negb andb] in *; [reflexivity|].
  destruct (is_shared w ik && is_dumping_dynamic_archive w);
    cbn [negb andb] in *; [reflexivity|].
  destruct (negb (is_hidden w ik)
            && (in_named_module (shared_path w (shared_classpath_index w ik))
                && negb (is_modules_image
                           (shared_path w (shared_classpath_index w ik)))));
    cbn [negb andb] in *; [reflexivity|discriminate].
Qed.

Lemma maybe_record_recorded w fuel ik r g :
  seen r ik = false ->
  eligible w (_loader_type r) (_record_javabase_only g) ik = true ->
  maybe_record w (S fuel) ik (r, g)
  = match record_supertypes w (maybe_record w fuel) ik
            (match java_super w ik with Some s => [s] | None => [] end)
            (fst (see ik r), g) with
    | None => None
    | Some st1 =>
        match record_supertypes w (maybe_record w fuel) ik
                (local_interfaces w ik) st1 with
        | None => None
        | Some (r2, g2) =>
            Some (list_append (get_buffered_klass w ik) r2,
                  with_preloaded_classes
                    (put_when_absent ik true (_preloaded_classes g2)) g2)
        end
    end.
Proof.
  intros S E. cbn [maybe_record]. unfold see. rewrite S.
  cbn [negb fst]. unfold loader_type_matches. cbn [_loader_type].
  unfold eligible in E.
  destruct (shared_class_loader_type w (get_buffered_addr w ik)
            =? _loader_type r); cbn [negb andb] in *; [|discriminate].
  destruct (is_hidden w ik && negb (is_dumping_invokedynamic w));
    cbn [negb andb] in *; [discriminate|].
  destruct (is_vm_class w ik); cbn [negb andb] in *; [discriminate|].
  destruct ((_loader_type r =? BOOT_LOADER w)
            && negb (Bool.eqb (_record_javabase_only g)
                       (is_in_javabase w ik)));
    cbn [negb andb] in *; [discriminate|].
  destruct (is_shared w ik && is_dumping_dynamic_archive w);
    cbn [negb andb] in *; [discriminate|].
  destruct (negb (is_hidden w ik)
            && (in_named_module (shared_path w (shared_classpath_index w ik))
                && negb (is_modules_image
                           (shared_path w (shared_classpath_index w ik)))));
    cbn [negb andb] in *; [discriminate|].
  reflexivity.
Qed.

(** *** Stretches of recording compose *)

Section Recorded.
Variable w : world.
Variable rank : klass -> nat.
Hypothesis hierarchy : acyclic w rank.

Lemma recorded_nothing bound st : recorded w rank bound st [] st.
Proof.
  constructor; auto.
  - cbn. now rewrite app_nil_r.
  - constructor.
  - intros x [].
  - exact I.
  - intros x S N. congruence.
Qed.

Lemma recorded_weaken b1 b2 st new st' :
  (b1 <= b2)%nat -> recorded w rank b1 st new st' ->
  recorded w rank b2 st new st'.
Proof.
  intros L [H1 H2 H3 H4 H5 H6 H7 P1 P2 H8]. constructor; auto.
  intros x X. destruct (H6 x X) as [A [B [C [D E]]]].
  repeat split; auto. lia.
Qed.

(** Of the statics only [_record_javabase_only] and [_preloaded_classes]
    matter. *)
Lemma recorded_statics bound st new r g g' :
  _record_javabase_only g' = _record_javabase_only g ->
  _preloaded_classes g' = _preloaded_classes g ->
  recorded w rank bound st new (r, g) ->
  recorded w rank bound st new (r, g').
Proof.
  intros E T [H1 H2 H3 H4 H5 H6 H7 P1 P2 H8].
  unfold is_preloaded_class in *. cbn [fst snd] in *.
  constructor; unfold is_preloaded_class; cbn [fst snd];
    rewrite ?T; auto.
  congruence.
Qed.

Lemma supertypes_first_app l1 l2 :
  supertypes_first w l1 -> supertypes_first w l2 ->
  (forall x s, In x l1 -> In s (supertypes w x) -> ~ In s l2) ->
  supertypes_first w (l1 ++ l2).
Proof.
  induction l1 as [|x l1 IH]; intros F1 F2 C; [exact F2|].
  destruct F1 as [Fx F1]. cbn. split.
  - intros s Hs Hin. apply in_app_or in Hin. destruct Hin as [Hin|Hin].
    + exact (Fx s Hs Hin).
    + exact (C x s (or_introl eq_refl) Hs Hin).
  - apply IH; auto. intros y s Hy. apply C. now right.
Qed.

Lemma recorded_then bound st new1 st1 new2 st2 :
  recorded w rank bound st new1 st1 ->
  recorded w rank bound st1 new2 st2 ->
  recorded w rank bound st (new1 ++ new2) st2.
Proof.
  intros [A1 A2 A3 A4 A5 A6 A7 AP1 AP2 A8] [B1 B2 B3 B4 B5 B6 B7 BP1 BP2 B8].
  rewrite A1, A2 in *.
  constructor.
  - congruence.
  - congruence.
  - auto.
  - rewrite B4, A4, map_app, app_assoc. reflexivity.
  - apply NoDup_app; auto.
    intros x X1 X2.
    destruct (A6 x X1) as [_ [S1 _]]. destruct (B6 x X2) as [S2 _].
    congruence.
  - intros x X. apply in_app_or in X. destruct X as [X|X].
    + destruct (A6 x X) as [P [Q [R [S T]]]]. repeat split; auto.
    + destruct (B6 x X) as [P [Q [R [S T]]]]. repeat split; auto.
      destruct (seen (fst st) x) eqn:E; [|reflexivity].
      apply A3 in E. congruence.
  - apply supertypes_first_app; auto.
    intros x s X Hs Hin.
    destruct (A6 x X) as [_ [_ [_ [_ T]]]].
    destruct (B6 s Hin) as [N _]. rewrite (T s Hs) in N. discriminate.
  - auto.
  - intros x X. apply in_app_or in X. destruct X as [X|X]; auto.
  - intros x S2 S0 E. apply in_or_app.
    destruct (seen (fst st1) x) eqn:S1.
    + left. now apply A8.
    + right. now apply B8.
Qed.

(** What [maybe_record] is shown to do on a class of rank below [fuel]. *)
Definition maybe_record_ok (fuel : nat) : Prop :=
  forall ik st,
    (rank ik < fuel)%nat ->
    exists new st',
      maybe_record w fuel ik st = Some st' /\
      recorded w rank (S (rank ik)) st new st' /\
      seen (fst st') ik = true.

Lemma record_supertypes_ok fuel ik :
  maybe_record_ok fuel ->
  forall sup st,
    (forall s, In s sup -> (rank s < fuel)%nat /\ (rank s < rank ik)%nat) ->
    exists new st',
      record_supertypes w (maybe_record w fuel) ik sup st = Some st' /\
      recorded w rank (rank ik) st new st' /\
      (forall s, In s sup -> seen (fst st') s = true).
Proof.
  intros OK. induction sup as [|s sup IH]; intros st B.
  - exists [], st. split; [reflexivity|].
    split; [apply recorded_nothing|]. intros s [].
  - destruct (B s (or_introl eq_refl)) as [Bf Br].
    destruct (OK s st Bf) as [n1 [[r1 g1] [E1 [R1 S1]]]].
    destruct (IH (r1, add_initiated_klass w ik s g1)
                (fun x X => B x (or_intror X)))
      as [n2 [st2 [E2 [R2 S2]]]].
    exists (n1 ++ n2), st2. cbn [record_supertypes]. rewrite E1.
    split; [exact E2|]. split.
    + apply recorded_then with (st1 := (r1, add_initiated_klass w ik s g1)).
      * apply recorded_statics with (g := g1);
          [apply add_initiated_klass_keeps | apply add_initiated_klass_keeps|].
        apply recorded_weaken with (b1 := S (rank s)); [lia | exact R1].
      * exact R2.
    + intros x [<-|X]; [|now apply S2].
      apply (rec_seen_grows _ _ _ _ _ _ R2). exact S1.
Qed.

Lemma in_supertypes_super ik s :
  In s (match java_super w ik with Some s => [s] | None => [] end) ->
  In s (supertypes w ik).
Proof. intros H. unfold supertypes. apply in_or_app. now left. Qed.

Lemma in_supertypes_interface ik s :
  In s (local_interfaces w ik) -> In s (supertypes w ik).
Proof. intros H. unfold supertypes. apply in_or_app. now right. Qed.

(** A class that is turned away is marked as seen and nothing else. *)
Lemma recorded_turned_away ik r g :
  seen r ik = false ->
  eligible w (_loader_type r) (_record_javabase_only g) ik = false ->
  recorded w rank (S (rank ik)) (r, g) [] (fst (see ik r), g).
Proof.
  intros S E. destruct (see_fields ik r) as [F1 [F2 _]].
  constructor; cbn [fst snd]; auto.
  - intros x X. rewrite seen_see, X. apply orb_true_r.
  - rewrite F2. cbn. now rewrite app_nil_r.
  - constructor.
  - intros x [].
  - exact I.
  - intros x X N El. rewrite seen_see, N, orb_false_r in X.
    apply Z.eqb_eq in X. subst x. congruence.
Qed.

(** A class that is let through is appended after all that its
    supertypes brought in. *)
Lemma is_preloaded_put ik x g :
  is_preloaded_class x
    (with_preloaded_classes
       (put_when_absent ik true (_preloaded_classes g)) g)
  = (ik =? x) || is_preloaded_class x g.
Proof.
  unfold is_preloaded_class, put_when_absent. cbn.
  destruct (ik =? x); reflexivity.
Qed.

Lemma recorded_appended ik r g new r2 g2 :
  seen r ik = false ->
  eligible w (_loader_type r) (_record_javabase_only g) ik = true ->
  recorded w rank (rank ik) (fst (see ik r), g) new (r2, g2) ->
  (forall s, In s (supertypes w ik) -> seen r2 s = true) ->
  recorded w rank (S (rank ik)) (r, g) (new ++ [ik])
    (list_append (get_buffered_klass w ik) r2,
     with_preloaded_classes
       (put_when_absent ik true (_preloaded_classes g2)) g2).
Proof.
  intros S E [H1 H2 H3 H4 H5 H6 H7 P1 P2 H8] Sup.
  destruct (see_fields ik r) as [F1 [F2 _]].
  cbn [fst snd] in *. rewrite F1 in *.
  assert (Lower : forall x, In x new -> x <> ik).
  { intros x X ->. destruct (H6 ik X) as [_ [_ [_ [L _]]]]. lia. }
  constructor; cbn [fst snd].
  - exact H1.
  - exact H2.
  - intros x X. apply H3. rewrite seen_see, X. apply orb_true_r.
  - cbn [list_append _list]. rewrite H4, F2, map_app, app_assoc.
    reflexivity.
  - apply NoDup_app; auto.
    + constructor; [intros []|constructor].
    + intros x X [Q|[]]. apply (Lower x X). now symmetry.
  - intros x X. apply in_app_or in X. destruct X as [X|[<-|[]]].
    + destruct (H6 x X) as [P [Q [R [L T]]]].
      rewrite seen_see in P. apply orb_false_iff in P. destruct P as [_ P].
      split; [exact P|]. split; [exact Q|]. split; [exact R|].
      split; [lia | exact T].
    + repeat split; auto.
      apply H3. rewrite seen_see, Z.eqb_refl. reflexivity.
  - apply supertypes_first_app; auto.
    + cbn. split; [intros s _ []|exact I].
    + intros x s X Hs [Q|[]]. subst s.
      destruct (H6 x X) as [_ [_ [_ [L _]]]].
      pose proof (hierarchy x ik Hs). lia.
  - intros x X. rewrite is_preloaded_put, (P1 x X). apply orb_true_r.
  - intros x X. rewrite is_preloaded_put.
    apply in_app_or in X. destruct X as [X|[<-|[]]].
    + rewrite (P2 x X). apply orb_true_r.
    + now rewrite Z.eqb_refl.
  - intros x X N El. apply in_or_app.
    destruct (Z.eq_dec x ik) as [->|D]; [right; now left|].
    left. apply H8; auto.
    rewrite seen_see, N, orb_false_r. now apply Z.eqb_neq.
Qed.

Lemma maybe_record_ok_always fuel : maybe_record_ok fuel.
Proof.
  induction fuel as [|fuel IH]; intros ik [r g] L; [lia|].
  destruct (seen r ik) eqn:S.
  - exists [], (r, g). rewrite (maybe_record_seen w fuel ik r g S).
    split; [reflexivity|]. split; [apply recorded_nothing | exact S].
  - destruct (eligible w (_loader_type r) (_record_javabase_only g) ik)
      eqn:E.
    + rewrite (maybe_record_recorded w fuel ik r g S E).
      assert (B1 : forall s,
                 In s (match java_super w ik with
                       | Some s => [s] | None => [] end) ->
                 (rank s < fuel)%nat /\ (rank s < rank ik)%nat).
      { intros s Hs. apply in_supertypes_super in Hs.
        pose proof (hierarchy ik s Hs). lia. }
      assert (B2 : forall s,
                 In s (local_interfaces w ik) ->
                 (rank s < fuel)%nat /\ (rank s < rank ik)%nat).
      { intros s Hs. apply in_supertypes_interface in Hs.
        pose proof (hierarchy ik s Hs). lia. }
      destruct (record_supertypes_ok fuel ik IH _ (fst (see ik r), g) B1)
        as [n1 [st1 [E1 [R1 S1]]]].
      destruct (record_supertypes_ok fuel ik IH _ st1 B2)
        as [n2 [[r2 g2] [E2 [R2 S2]]]].
      rewrite E1, E2.
      exists ((n1 ++ n2) ++ [ik]). eexists. split; [reflexivity|].
      split.
      * apply recorded_appended; auto.
        -- exact (recorded_then _ _ _ _ _ _ R1 R2).
        -- intros s Hs. unfold supertypes in Hs. apply in_app_or in Hs.
           destruct Hs as [Hs|Hs]; [|now apply S2].
           apply (rec_seen_grows _ _ _ _ _ _ R2). now apply S1.
      * cbn [fst]. unfold seen, list_append. cbn [_seen_klasses].
        apply (rec_seen_grows _ _ _ _ _ _ (recorded_then _ _ _ _ _ _ R1 R2)).
        cbn [fst]. rewrite seen_see, Z.eqb_refl. reflexivity.
    + rewrite (maybe_record_turned_away w fuel ik r g S E).
      exists [], (fst (see ik r), g). split; [reflexivity|].
      split; [now apply recorded_turned_away|].
      cbn [fst]. rewrite seen_see, Z.eqb_refl. reflexivity.
Qed.

(** [iterate] over a list of klasses whose ranks are below [fuel]. *)
Lemma iterate_over_ok fuel : forall ks st,
  (forall k, In k ks -> (rank k < fuel)%nat) ->
  exists new st',
    iterate_over w fuel ks st = Some st' /\
    recorded w rank fuel st new st' /\
    (forall k, In k ks -> is_instance_klass w k = true ->
               seen (fst st') k = true).
Proof.
  induction ks as [|k ks IH]; intros st B.
  - exists [], st. split; [reflexivity|].
    split; [apply recorded_nothing|]. intros k [].
  - cbn [iterate_over]. destruct (is_instance_klass w k) eqn:Ik.
    + destruct (maybe_record_ok_always fuel k st (B k (or_introl eq_refl)))
        as [n1 [st1 [E1 [R1 S1]]]].
      destruct (IH st1 (fun x X => B x (or_intror X)))
        as [n2 [st2 [E2 [R2 S2]]]].
      rewrite E1. exists (n1 ++ n2), st2. split; [exact E2|]. split.
      * apply recorded_then with (st1 := st1); [|exact R2].
        apply recorded_weaken with (b1 := S (rank k)); [|exact R1].
        pose proof (B k (or_introl eq_refl)). lia.
      * intros x [<-|X] Ix; [|now apply S2].
        apply (rec_seen_grows _ _ _ _ _ _ R2). exact S1.
    + destruct (IH st (fun x X => B x (or_intror X)))
        as [n2 [st2 [E2 [R2 S2]]]].
      exists n2, st2. split; [exact E2|]. split; [exact R2|].
      intros x [<-|X] Ix; [congruence|now apply S2].
Qed.

End Recorded.

Lemma supertypes_first_split w l : supertypes_first w l ->
  forall l1 x l2, l = l1 ++ x :: l2 ->
  forall s, In s (supertypes w x) -> ~ In s l2.
Proof.
  intros F l1. revert l F. induction l1 as [|y l1 IH]; intros l F x l2 E.
  - subst l. now destruct F.
  - subst l. destruct F as [_ F]. now apply (IH _ F x l2).
Qed.

(** One pass of the recorder over the klasses of the archive builder. *)
Lemma record_preloaded_klasses_of_ok w rank fuel lt g :
  acyclic w rank ->
  (forall k, In k (klasses w) -> (rank k < fuel)%nat) ->
  exists srcs r' g',
    record_preloaded_klasses_of w fuel lt g
    = Some (map (get_buffered_klass w) srcs, g') /\
    recorded w rank fuel (mk_recorder lt [] [], g) srcs (r', g') /\
    (forall k, In k (klasses w) -> is_instance_klass w k = true ->
               seen r' k = true).
Proof.
  intros A B.
  destruct (iterate_over_ok w rank A fuel (klasses w)
              (mk_recorder lt [] [], g) B) as [srcs [[r' g'] [E [R S]]]].
  exists srcs, r', g'. unfold record_preloaded_klasses_of, iterate.
  rewrite E. split; [|split; [exact R | exact S]].
  pose proof (rec_list _ _ _ _ _ _ R) as L. cbn [fst _list app] in L.
  now rewrite L.
Qed.

(** X16.  One pass of the recorder returns, and its list has no class
    twice.  When the class hierarchy has no cycle and [fuel] exceeds the
    rank of the klasses the archive builder lists,
    [record_preloaded_klasses(loader_type)] returns the buffered copies of
    a list of classes in which no class occurs twice and every class has
    passed all the early returns of [maybe_record] for that loader type;
    if different classes have different buffered copies the returned list
    has no entry twice; [_record_javabase_only] is as before. *)
Theorem preload_list_has_each_class_once w rank fuel lt g :
  acyclic w rank ->
  (forall k, In k (klasses w) -> (rank k < fuel)%nat) ->
  exists srcs g',
    record_preloaded_klasses_of w fuel lt g
    = Some (map (get_buffered_klass w) srcs, g') /\
    NoDup srcs /\
    (forall x, In x srcs ->
       eligible w lt (_record_javabase_only g) x = true) /\
    ((forall a b, get_buffered_klass w a = get_buffered_klass w b -> a = b) ->
     NoDup (map (get_buffered_klass w) srcs)) /\
    _record_javabase_only g' = _record_javabase_only g.
Proof.
  intros A B.
  destruct (record_preloaded_klasses_of_ok w rank fuel lt g A B)
    as [srcs [r' [g' [E [R _]]]]].
  exists srcs, g'. split; [exact E|].
  pose proof (rec_nodup _ _ _ _ _ _ R) as N.
  split; [exact N|]. split; [|split].
  - intros x X. now destruct (rec_new _ _ _ _ _ _ R x X) as [_ [_ [El _]]].
  - intros Inj. clear - N Inj. induction N as [|x l Nx N IH]; cbn.
    + constructor.
    + constructor; [|exact IH]. intros H. apply in_map_iff in H.
      destruct H as [y [Ey Hy]]. apply Inj in Ey. subst y. contradiction.
  - exact (rec_javabase_only _ _ _ _ _ _ R).
Qed.

Lemma sample_world_acyclic : acyclic sample_world sample_rank.
Proof.
  intros ik s. unfold supertypes, sample_rank. cbn.
  destruct (ik =? 30); cbn; [|tauto].
  intros [<-|[<-|[]]]; cbn; lia.
Qed.

Lemma sample_world_bound :
  forall k, In k (klasses sample_world) -> (sample_rank k < 5)%nat.
Proof.
  intros k H. unfold sample_rank. destruct (k =? 30); lia.
Qed.

Lemma preload_list_has_each_class_once_witness :
  acyclic sample_world sample_rank /\
  (forall k, In k (klasses sample_world) -> (sample_rank k < 5)%nat) /\
  exists srcs g',
    record_preloaded_klasses_of sample_world 5 1 sample_statics
    = Some (map (get_buffered_klass sample_world) srcs, g') /\
    NoDup srcs.
Proof.
  split; [exact sample_world_acyclic|]. split; [exact sample_world_bound|].
  destruct (preload_list_has_each_class_once sample_world sample_rank 5 1
              sample_statics sample_world_acyclic sample_world_bound)
    as [srcs [g' [E [N _]]]].
  exists srcs, g'. split; assumption.
Defined.

(** X17.  Supertypes come first.  Under the same conditions, in the list
    that one pass of the recorder returns no class is followed, anywhere
    later in the list, by its superclass or by one of its local
    interfaces: whichever of them are recorded are recorded before it. *)
Theorem preload_list_has_supertypes_first w rank fuel lt g :
  acyclic w rank ->
  (forall k, In k (klasses w) -> (rank k < fuel)%nat) ->
  exists srcs g',
    record_preloaded_klasses_of w fuel lt g
    = Some (map (get_buffered_klass w) srcs, g') /\
    (forall before x after,
        srcs = before ++ x :: after ->
        forall s, In s (supertypes w x) -> s <> x /\ ~ In s after).
Proof.
  intros A B.
  destruct (record_preloaded_klasses_of_ok w rank fuel lt g A B)
    as [srcs [r' [g' [E [R _]]]]].
  exists srcs, g'. split; [exact E|].
  intros before x after Eq s Hs. split.
  - intros ->. pose proof (A x x Hs). lia.
  - exact (supertypes_first_split w srcs (rec_order _ _ _ _ _ _ R)
             before x after Eq s Hs).
Qed.

Lemma preload_list_has_supertypes_first_witness :
  acyclic sample_world sample_rank /\
  (forall k, In k (klasses sample_world) -> (sample_rank k < 5)%nat) /\
  record_preloaded_klasses_of sample_world 5 1 sample_statics
  = Some ([1020; 1030],
          mk_statics [(30, true); (20, true)] [] [] false
            (mk_tables None None None None None None)
            (mk_tables None None None None None None)) /\
  exists srcs g',
    record_preloaded_klasses_of sample_world 5 1 sample_statics
    = Some (map (get_buffered_klass sample_world) srcs, g') /\
    (forall before x after,
        srcs = before ++ x :: after ->
        forall s, In s (supertypes sample_world x) -> ~ In s after).
Proof.
  split; [exact sample_world_acyclic|]. split; [exact sample_world_bound|].
  split; [reflexivity|].
  destruct (preload_list_has_supertypes_first sample_world sample_rank 5 1
              sample_statics sample_world_acyclic sample_world_bound)
    as [srcs [g' [E O]]].
  exists srcs, g'. split; [exact E|].
  intros before x after Eq s Hs. exact (proj2 (O before x after Eq s Hs)).
Defined.

(** X18.  Nothing that qualifies is left out.  Under the same conditions,
    the list that one pass of the recorder returns holds every instance
    klass of the archive builder that passes the early returns of
    [maybe_record], and with every class it holds each of its direct
    supertypes that passes them. *)
Theorem preload_list_is_complete w rank fuel lt g :
  acyclic w rank ->
  (forall k, In k (klasses w) -> (rank k < fuel)%nat) ->
  exists srcs g',
    record_preloaded_klasses_of w fuel lt g
    = Some (map (get_buffered_klass w) srcs, g') /\
    (forall k, In k (klasses w) -> is_instance_klass w k = true ->
       eligible w lt (_record_javabase_only g) k = true -> In k srcs) /\
    (forall x s, In x srcs -> In s (supertypes w x) ->
       eligible w lt (_record_javabase_only g) s = true -> In s srcs).
Proof.
  intros A B.
  destruct (record_preloaded_klasses_of_ok w rank fuel lt g A B)
    as [srcs [r' [g' [E [R S]]]]].
  exists srcs, g'. split; [exact E|]. split.
  - intros k K I El. apply (rec_complete _ _ _ _ _ _ R); auto.
  - intros x s X Hs El.
    destruct (rec_new _ _ _ _ _ _ R x X) as [_ [_ [_ [_ T]]]].
    apply (rec_complete _ _ _ _ _ _ R); auto.
Qed.

Lemma preload_list_is_complete_witness :
  acyclic sample_world sample_rank /\
  (forall k, In k (klasses sample_world) -> (sample_rank k < 5)%nat) /\
  exists srcs g',
    record_preloaded_klasses_of sample_world 5 1 sample_statics
    = Some (map (get_buffered_klass sample_world) srcs, g') /\
    In 30 srcs /\ In 20 srcs.
Proof.
  split; [exact sample_world_acyclic|]. split; [exact sample_world_bound|].
  destruct (preload_list_is_complete sample_world sample_rank 5 1
              sample_statics sample_world_acyclic sample_world_bound)
    as [srcs [g' [E [K S]]]].
  exists srcs, g'. split; [exact E|].
  assert (I30 : In 30 srcs)
    by (apply K; [left; reflexivity | reflexivity | reflexivity]).
  split; [exact I30|].
  apply (S 30 20 I30); [right; left; reflexivity | reflexivity].
Defined.

(** X19.  What is recorded is marked as preloaded.  Under the same
    conditions, after one pass of the recorder [is_preloaded_class] holds
    for every class whose buffered copy is in the returned list, and still
    holds for every class for which it held before. *)
Theorem recorded_classes_are_preloaded w rank fuel lt g :
  acyclic w rank ->
  (forall k, In k (klasses w) -> (rank k < fuel)%nat) ->
  exists srcs g',
    record_preloaded_klasses_of w fuel lt g
    = Some (map (get_buffered_klass w) srcs, g') /\
    (forall x, In x srcs -> is_preloaded_class x g' = true) /\
    (forall x, is_preloaded_class x g = true ->
               is_preloaded_class x g' = true).
Proof.
  intros A B.
  destruct (record_preloaded_klasses_of_ok w rank fuel lt g A B)
    as [srcs [r' [g' [E [R _]]]]].
  exists srcs, g'. split; [exact E|]. split.
  - exact (rec_preloaded _ _ _ _ _ _ R).
  - exact (rec_preloaded_grows _ _ _ _ _ _ R).
Qed.

Lemma recorded_classes_are_preloaded_witness :
  acyclic sample_world sample_rank /\
  (forall k, In k (klasses sample_world) -> (sample_rank k < 5)%nat) /\
  exists srcs g',
    record_preloaded_klasses_of sample_world 5 1 sample_statics
    = Some (map (get_buffered_klass sample_world) srcs, g') /\
    (forall x, In x srcs -> is_preloaded_class x g' = true).
Proof.
  split; [exact sample_world_acyclic|]. split; [exact sample_world_bound|].
  destruct (recorded_classes_are_preloaded sample_world sample_rank 5 1
              sample_statics sample_world_acyclic sample_world_bound)
    as [srcs [g' [E [P _]]]].
  exists srcs, g'. split; assumption.
Defined.

(** *** The four passes of [record_preloaded_klasses] *)

(** The recorder writes to the statics only through [add_initiated_klass]
    and through [_preloaded_classes->put_when_absent]. *)
Section Statics.
Variable w : world.
Variable P : statics -> Prop.
Hypothesis P_initiated :
  forall ik s g, P g -> P (add_initiated_klass w ik s g).
Hypothesis P_preloaded :
  forall ik g, P g ->
    P (with_preloaded_classes
         (put_when_absent ik true (_preloaded_classes g)) g).

Lemma record_supertypes_statics f ik :
  (forall k r g r' g', f k (r, g) = Some (r', g') -> P g -> P g') ->
  forall sup r g r' g',
    record_supertypes w f ik sup (r, g) = Some (r', g') -> P g -> P g'.
Proof.
  intros F. induction sup as [|s sup IH]; intros r g r' g' E H.
  - cbn in E. now injection E as _ <-.
  - cbn [record_supertypes] in E.
    destruct (f s (r, g)) as [[r1 g1]|] eqn:E1; [|discriminate].
    apply (IH _ _ _ _ E). apply P_initiated. exact (F _ _ _ _ _ E1 H).
Qed.

Lemma maybe_record_statics fuel : forall ik r g r' g',
  maybe_record w fuel ik (r, g) = Some (r', g') -> P g -> P g'.
Proof.
  induction fuel as [|fuel IH]; intros ik r g r' g' E H; [discriminate|].
  destruct (seen r ik) eqn:S.
  - rewrite (maybe_record_seen w fuel ik r g S) in E.
    now injection E as _ <-.
  - destruct (eligible w (_loader_type r) (_record_javabase_only g) ik)
      eqn:El.
    + rewrite (maybe_record_recorded w fuel ik r g S El) in E.
      destruct (record_supertypes w (maybe_record w fuel) ik _
                  (fst (see ik r), g)) as [[r1 g1]|] eqn:E1; [|discriminate].
      destruct (record_supertypes w (maybe_record w fuel) ik _ (r1, g1))
        as [[r2 g2]|] eqn:E2; [|discriminate].
      injection E as _ <-. apply P_preloaded.
      apply (record_supertypes_statics _ ik IH _ _ _ _ _ E2).
      exact (record_supertypes_statics _ ik IH _ _ _ _ _ E1 H).
    + rewrite (maybe_record_turned_away w fuel ik r g S El) in E.
      now injection E as _ <-.
Qed.

Lemma iterate_over_statics fuel : forall ks r g r' g',
  iterate_over w fuel ks (r, g) = Some (r', g') -> P g -> P g'.
Proof.
  induction ks as [|k ks IH]; intros r g r' g' E H.
  - cbn in E. now injection E as _ <-.
  - cbn [iterate_over] in E. destruct (is_instance_klass w k).
    + destruct (maybe_record w fuel k (r, g)) as [[r1 g1]|] eqn:E1;
        [|discriminate].
      apply (IH _ _ _ _ E). exact (maybe_record_statics _ _ _ _ _ _ E1 H).
    + exact (IH _ _ _ _ E H).
Qed.

Lemma record_preloaded_klasses_of_statics fuel lt g l g' :
  record_preloaded_klasses_of w fuel lt g = Some (l, g') -> P g -> P g'.
Proof.
  unfold record_preloaded_klasses_of, iterate. intros E H.
  destruct (iterate_over w fuel (klasses w) (mk_recorder lt [] [], g))
    as [[r1 g1]|] eqn:E1; [|discriminate].
  injection E as _ <-. exact (iterate_over_statics _ _ _ _ _ _ E1 H).
Qed.

End Statics.

Lemma eligible_loader_type w lt jo x :
  eligible w lt jo x = true ->
  shared_class_loader_type w (get_buffered_addr w x) = lt.
Proof.
  unfold eligible. intros E.
  repeat (apply andb_true_iff in E; destruct E as [E _]).
  now apply Z.eqb_eq.
Qed.

Lemma eligible_boot_javabase w jo x :
  eligible w (BOOT_LOADER w) jo x = true -> is_in_javabase w x = jo.
Proof.
  unfold eligible. intros E.
  apply andb_true_iff in E. destruct E as [E _].
  apply andb_true_iff in E. destruct E as [E _].
  apply andb_true_iff in E. destruct E as [_ E].
  rewrite Z.eqb_refl in E. cbn [andb] in E.
  rewrite negb_involutive in E. symmetry. now apply Bool.eqb_prop.
Qed.

(** One pass, with what the four passes need to know of it. *)
Lemma one_pass w rank fuel lt g :
  acyclic w rank ->
  (forall k, In k (klasses w) -> (rank k < fuel)%nat) ->
  exists srcs g',
    record_preloaded_klasses_of w fuel lt g
    = Some (map (get_buffered_klass w) srcs, g') /\
    (forall x, In x srcs ->
       eligible w lt (_record_javabase_only g) x = true) /\
    _record_javabase_only g' = _record_javabase_only g /\
    _static_preloaded_klasses g' = _static_preloaded_klasses g /\
    _dynamic_preloaded_klasses g' = _dynamic_preloaded_klasses g.
Proof.
  intros A B.
  destruct (record_preloaded_klasses_of_ok w rank fuel lt g A B)
    as [srcs [r' [g' [E [R _]]]]].
  exists srcs, g'. split; [exact E|]. split; [|split].
  - intros x X. now destruct (rec_new _ _ _ _ _ _ R x X) as [_ [_ [El _]]].
  - exact (rec_javabase_only _ _ _ _ _ _ R).
  - apply (record_preloaded_klasses_of_statics w
             (fun s => _static_preloaded_klasses s
                       = _static_preloaded_klasses g /\
                       _dynamic_preloaded_klasses s
                       = _dynamic_preloaded_klasses g)) with (3 := E).
    + intros ik s g0 [H1 H2].
      destruct (add_initiated_klass_keeps w ik s g0) as [_ [_ [K1 K2]]].
      split; congruence.
    + intros ik g0 H. exact H.
    + split; reflexivity.
Qed.

Lemma add_extra_initiated_klasses_keeps w table g :
  table_of true (add_extra_initiated_klasses w table g) = table_of true g /\
  table_of false (add_extra_initiated_klasses w table g) = table_of false g /\
  _record_javabase_only (add_extra_initiated_klasses w table g)
  = _record_javabase_only g.
Proof.
  unfold add_extra_initiated_klasses.
  destruct (_app table) as [app|]; [|repeat split].
  destruct (0 <? Z.of_nat (length app)); repeat split.
Qed.

(** X20.  The four lists of [record_preloaded_klasses].  With
    [PreloadSharedClasses] on, an acyclic hierarchy and enough [fuel], the
    function returns with [_boot], [_boot2], [_platform] and [_app] of the
    chosen table set to the buffered copies of four lists of classes: the
    classes of [_boot] are in java.base and those of [_boot2] are not, so
    no class is in both; the classes of [_boot] and [_boot2] have the boot
    loader type, those of [_platform] the platform and those of [_app] the
    app loader type; [_record_javabase_only] ends [false]. *)
Theorem boot_classes_are_split_on_java_base w rank fuel is_static g :
  acyclic w rank ->
  (forall k, In k (klasses w) -> (rank k < fuel)%nat) ->
  PreloadSharedClasses w = true ->
  exists boot boot2 platform app g',
    record_preloaded_klasses w fuel is_static g = Some g' /\
    _boot (table_of is_static g')
    = Some (map (get_buffered_klass w) boot) /\
    _boot2 (table_of is_static g')
    = Some (map (get_buffered_klass w) boot2) /\
    _platform (table_of is_static g')
    = Some (map (get_buffered_klass w) platform) /\
    _app (table_of is_static g')
    = Some (map (get_buffered_klass w) app) /\
    (forall x, In x boot ->
       is_in_javabase w x = true /\
       shared_class_loader_type w (get_buffered_addr w x) = BOOT_LOADER w) /\
    (forall x, In x boot2 ->
       is_in_javabase w x = false /\
       shared_class_loader_type w (get_buffered_addr w x) = BOOT_LOADER w) /\
    (forall x, In x platform ->
       shared_class_loader_type w (get_buffered_addr w x)
       = PLATFORM_LOADER w) /\
    (forall x, In x app ->
       shared_class_loader_type w (get_buffered_addr w x) = APP_LOADER w) /\
    (forall x, In x boot -> ~ In x boot2) /\
    _record_javabase_only g' = false.
Proof.
  intros A B On. unfold record_preloaded_klasses. rewrite On.
  destruct (one_pass w rank fuel (BOOT_LOADER w)
              (with_record_javabase_only true g) A B)
    as [boot [g1 [E1 [L1 [J1 [S1 D1]]]]]].
  rewrite E1.
  set (g1' := with_record_javabase_only false
                (with_table is_static
                   (set_boot (map (get_buffered_klass w) boot)
                      (table_of is_static g1)) g1)).
  destruct (one_pass w rank fuel (BOOT_LOADER w) g1' A B)
    as [boot2 [g2 [E2 [L2 [J2 [S2 D2]]]]]].
  rewrite E2.
  set (g2' := with_table is_static
                (set_boot2 (map (get_buffered_klass w) boot2)
                   (table_of is_static g2)) g2).
  destruct (one_pass w rank fuel (PLATFORM_LOADER w) g2' A B)
    as [platform [g3 [E3 [L3 [J3 [S3 D3]]]]]].
  rewrite E3.
  set (g3' := with_table is_static
                (set_platform (map (get_buffered_klass w) platform)
                   (table_of is_static g3)) g3).
  destruct (one_pass w rank fuel (APP_LOADER w) g3' A B)
    as [app [g4 [E4 [L4 [J4 [S4 D4]]]]]].
  rewrite E4.
  set (g4' := with_table is_static
                (set_app (map (get_buffered_klass w) app)
                   (table_of is_static g4)) g4).
  exists boot, boot2, platform, app. eexists. split; [reflexivity|].
  destruct (add_extra_initiated_klasses_keeps w (table_of is_static g4') g4')
    as [KT [KF KJ]].
  assert (T : table_of is_static
                (add_extra_initiated_klasses w (table_of is_static g4') g4')
              = table_of is_static g4') by (destruct is_static; assumption).
  rewrite T, KJ. clear T KT KF KJ.
  assert (T4 : table_of is_static g4 = table_of is_static g3')
    by (unfold table_of; destruct is_static; assumption).
  assert (T3 : table_of is_static g3 = table_of is_static g2')
    by (unfold table_of; destruct is_static; assumption).
  assert (T2 : table_of is_static g2 = table_of is_static g1')
    by (unfold table_of; destruct is_static; assumption).
  assert (J : _record_javabase_only g4 = false).
  { rewrite J4. subst g3'. destruct is_static; cbn; rewrite J3;
      subst g2'; cbn; rewrite J2; reflexivity. }
  assert (Tab : table_of is_static g4'
                = set_app (map (get_buffered_klass w) app)
                    (set_platform (map (get_buffered_klass w) platform)
                       (set_boot2 (map (get_buffered_klass w) boot2)
                          (set_boot (map (get_buffered_klass w) boot)
                             (table_of is_static g1))))).
  { subst g4'. rewrite T4. subst g3'. rewrite T3. subst g2'. rewrite T2.
    subst g1'. destruct is_static; reflexivity. }
  rewrite Tab. cbn [_boot _boot2 _platform _app set_app set_platform
                    set_boot2 set_boot].
  repeat (split; [reflexivity|]).
  assert (B1 : forall x, In x boot -> is_in_javabase w x = true).
  { intros x X. exact (eligible_boot_javabase w _ x (L1 x X)). }
  assert (B2 : forall x, In x boot2 -> is_in_javabase w x = false).
  { intros x X. pose proof (L2 x X) as El. subst g1'.
    exact (eligible_boot_javabase w _ x El). }
  split; [intros x X; split;
          [now apply B1 | exact (eligible_loader_type w _ _ x (L1 x X))]|].
  split; [intros x X; split;
          [now apply B2 | exact (eligible_loader_type w _ _ x (L2 x X))]|].
  split; [intros x X; exact (eligible_loader_type w _ _ x (L3 x X))|].
  split; [intros x X; exact (eligible_loader_type w _ _ x (L4 x X))|].
  split.
  - intros x X1 X2. pose proof (B1 x X1). pose proof (B2 x X2). congruence.
  - subst g4'. destruct is_static; exact J.
Qed.

Lemma boot_classes_are_split_on_java_base_witness :
  acyclic sample_world sample_rank /\
  (forall k, In k (klasses sample_world) -> (sample_rank k < 5)%nat) /\
  PreloadSharedClasses sample_world = true /\
  exists g',
    record_preloaded_klasses sample_world 5 true sample_statics = Some g' /\
    _boot (table_of true g') = Some [1010] /\
    _boot2 (table_of true g') = Some [1020; 1030] /\
    exists boot boot2,
      _boot (table_of true g')
      = Some (map (get_buffered_klass sample_world) boot) /\
      _boot2 (table_of true g')
      = Some (map (get_buffered_klass sample_world) boot2) /\
      (forall x, In x boot -> ~ In x boot2).
Proof.
  split; [exact sample_world_acyclic|]. split; [exact sample_world_bound|].
  split; [reflexivity|].
  destruct (boot_classes_are_split_on_java_base sample_world sample_rank 5
              true sample_statics sample_world_acyclic sample_world_bound
              eq_refl)
    as [boot [boot2 [platform [app [g' [E [T1 [T2 [_ [_ [_ [_ [_ [_ [D _]]]]]]]]]]]]]]].
  exists g'. split; [exact E|].
  assert (V : record_preloaded_klasses sample_world 5 true sample_statics
              = Some g') by exact E.
  vm_compute in V. injection V as <-.
  split; [reflexivity|]. split; [reflexivity|].
  exists boot, boot2. split; [exact T1|]. split; [exact T2 | exact D].
Defined.

End RecorderFacts.

(** ** The initiated classes *)

Module InitiatedFacts.

Import ClassPreloader RecorderSpec.

Lemma table_get_none t k :
  table_get t k = None <-> ~ In k (map fst t).
Proof.
  induction t as [|[k' v] t IH]; cbn.
  - tauto.
  - destruct (Z.eqb_spec k' k) as [->|N].
    + split; [discriminate|]. intros H. exfalso. apply H. now left.
    + rewrite IH. tauto.
Qed.

Lemma add_initiated_klass_to_entries t k e :
  In e (add_initiated_klass_to t k) <->
  In e t \/ (e = (k, true) /\ ~ In k (map fst t)).
Proof.
  unfold add_initiated_klass_to, put_if_absent.
  destruct (table_get t k) eqn:G; cbn [fst].
  - assert (K : In k (map fst t)).
    { destruct (in_dec Z.eq_dec k (map fst t)) as [I|N]; [exact I|].
      apply table_get_none in N. congruence. }
    tauto.
  - apply table_get_none in G. cbn. split.
    + intros [<-|H]; [right; now split | now left].
    + intros [H|[-> _]]; [now right | now left].
Qed.

Lemma add_initiated_klass_to_keys t k x :
  In x (map fst (add_initiated_klass_to t k)) <-> x = k \/ In x (map fst t).
Proof.
  unfold add_initiated_klass_to, put_if_absent.
  destruct (table_get t k) eqn:G; cbn [fst].
  - assert (K : In k (map fst t)).
    { destruct (in_dec Z.eq_dec k (map fst t)) as [I|N]; [exact I|].
      apply table_get_none in N. congruence. }
    split; [now right|]. intros [->|H]; assumption.
  - cbn. split; intros [H|H]; auto.
Qed.

Lemma added_entries ts : forall t0 k v,
  In (k, v) (fold_left add_initiated_klass_to ts t0) <->
  In (k, v) t0 \/ (v = true /\ In k ts /\ ~ In k (map fst t0)).
Proof.
  induction ts as [|a ts IH]; intros t0 k v; cbn [fold_left].
  - cbn. tauto.
  - rewrite IH, add_initiated_klass_to_entries, add_initiated_klass_to_keys.
    cbn [In]. split.
    + intros [[H|[E N]]|[V [I N]]].
      * now left.
      * injection E as -> ->. right. repeat split; auto.
      * right. repeat split; auto; tauto.
    + intros [H|[V [[->|I] N]]].
      * left. now left.
      * left. right. subst v. now split.
      * destruct (Z.eq_dec k a) as [->|D].
        -- left. right. subst v. now split.
        -- right. repeat split; auto; try tauto.
Qed.

Lemma unrecorded_entries ks : forall t k v,
  In (k, v) (add_unrecorded_initiated_klasses t ks) <->
  In (k, v) t \/ (v = false /\ In k ks).
Proof.
  induction ks as [|a ks IH]; intros t k v; cbn [add_unrecorded_initiated_klasses].
  - cbn. tauto.
  - rewrite IH. unfold put_when_absent. cbn [In]. split.
    + intros [[E|H]|[V I]].
      * injection E as -> ->. right. split; auto.
      * now left.
      * right. split; auto.
    + intros [H|[V [->|I]]].
      * left. now right.
      * left. left. now subst v.
      * right. now split.
Qed.

Lemma unrecorded_keys ks : forall t x,
  In x (map fst (add_unrecorded_initiated_klasses t ks)) <->
  In x (map fst t) \/ In x ks.
Proof.
  induction ks as [|a ks IH]; intros t x; cbn [add_unrecorded_initiated_klasses].
  - cbn. tauto.
  - rewrite IH. unfold put_when_absent. cbn. tauto.
Qed.

Lemma collected w t y :
  In y (record_initiated_klasses_of w t) <->
  exists ik v, In (ik, v) t /\ collect w ik v = Some y.
Proof.
  induction t as [|[ik v] t IH]; cbn [record_initiated_klasses_of].
  - cbn. split; [tauto|]. intros [? [? [[] _]]].
  - destruct (collect w ik v) as [k|] eqn:C; cbn [In]; rewrite IH; split.
    + intros [<-|[ik' [v' [I C']]]].
      * exists ik, v. split; [now left | exact C].
      * exists ik', v'. split; [now right | exact C'].
    + intros [ik' [v' [[E|I] C']]].
      * injection E as <- <-. left. congruence.
      * right. exists ik', v'. now split.
    + intros [ik' [v' [I C']]]. exists ik', v'. split; [now right | exact C'].
    + intros [ik' [v' [[E|I] C']]].
      * injection E as <- <-. congruence.
      * exists ik', v'. now split.
Qed.

(** X21.  Classes that the static archive already records are not recorded
    again.  Take a fresh table, enter the classes [ks] with
    [add_unrecorded_initiated_klasses], then add the classes [ts] one by
    one with [add_initiated_klass]: what [record_initiated_klasses] then
    collects from the table is exactly what its collector makes of the
    classes of [ts] that are not among [ks] (their buffered copy, or the
    class itself, unless the class is excluded). *)
Theorem initiated_classes_of_the_static_archive_are_skipped w ks ts y :
  In y (record_initiated_klasses_of w
          (fold_left add_initiated_klass_to ts
             (add_unrecorded_initiated_klasses [] ks))) <->
  exists ik, In ik ts /\ ~ In ik ks /\ collect w ik true = Some y.
Proof.
  rewrite collected. split.
  - intros [ik [v [I C]]].
    apply added_entries in I. destruct I as [I|[-> [I N]]].
    + apply unrecorded_entries in I. destruct I as [[]|[-> _]].
      discriminate C.
    + exists ik. repeat split; auto.
      intros K. apply N. apply unrecorded_keys. now right.
  - intros [ik [I [N C]]]. exists ik, true. split; [|exact C].
    apply added_entries. right. repeat split; auto.
    intros K. apply unrecorded_keys in K. destruct K as [[]|K]. now apply N.
Qed.

Lemma initiated_classes_of_the_static_archive_are_skipped_witness :
  record_initiated_klasses_of sample_world
    (fold_left add_initiated_klass_to [10; 20; 20]
       (add_unrecorded_initiated_klasses [] [10])) = [1020] /\
  exists ik, In ik [10; 20; 20] /\ ~ In ik [10] /\
             collect sample_world ik true = Some 1020.
Proof.
  split; [reflexivity|].
  apply (proj1 (initiated_classes_of_the_static_archive_are_skipped
                  sample_world [10] [10; 20; 20] 1020)).
  left. reflexivity.
Defined.

End InitiatedFacts.
